(** * createproject: the project-creation workflow of diez

    A shallow embedding of [packages/createproject/src/utils.ts].  The
    TypeScript module is a sequence of effectful steps over the file system
    and the console log; it is embedded as a state-and-exception monad over
    an explicit [World].  Everything the module imports from other packages
    is either an input of the run (record [Env]) or a small executable model
    whose doc comment says what it stands for. *)

From Stdlib Require Import Ascii String.
From stdpp Require Import gmap strings list fin_maps.

Local Open Scope string_scope.
Local Open Scope list_scope.

(** ** JavaScript strings

    A JS string is modelled by a Rocq [string]; the characters of the model
    are the code units below 256, and case mapping is the ASCII one. *)
Module JsString.

Definition chars (s : string) : list ascii := list_ascii_of_string s.
Definition str (l : list ascii) : string := string_of_list_ascii l.

Definition code (c : ascii) : nat := nat_of_ascii c.

Definition between (lo hi : nat) (c : ascii) : bool :=
  Nat.leb lo (code c) && Nat.leb (code c) hi.

Definition isUpper (c : ascii) : bool := between 65 90 c.
Definition isLower (c : ascii) : bool := between 97 122 c.
Definition isDigit (c : ascii) : bool := between 48 57 c.
Definition isWord (c : ascii) : bool := isUpper c || isLower c || isDigit c.

Definition toLowerChar (c : ascii) : ascii :=
  if isUpper c then ascii_of_nat (code c + 32) else c.
Definition toUpperChar (c : ascii) : ascii :=
  if isLower c then ascii_of_nat (code c - 32) else c.

(** [String.prototype.toLowerCase] and [toUpperCase]. *)
Definition toLowerCase (s : string) : string := str (map toLowerChar (chars s)).
Definition toUpperCase (s : string) : string := str (map toUpperChar (chars s)).

(** [s.startsWith(p)], on character lists. *)
Fixpoint startsWith (p s : list ascii) : bool :=
  match p, s with
  | [], _ => true
  | a :: p', b :: s' => bool_decide (a = b) && startsWith p' s'
  | _ :: _, [] => false
  end.

(** [s.includes(p)]. *)
Fixpoint includes (p s : list ascii) : bool :=
  startsWith p s ||
  match s with
  | [] => false
  | _ :: s' => includes p s'
  end.

(** [parts.join(sep)]. *)
Fixpoint join (sep : string) (parts : list string) : string :=
  match parts with
  | [] => ""
  | [x] => x
  | x :: rest => x +:+ sep +:+ join sep rest
  end.

(** [s.split(sep)] for a one-character separator. *)
Fixpoint splitOn (sep : ascii) (s : list ascii) : list (list ascii) :=
  match s with
  | [] => [[]]
  | c :: s' =>
      if bool_decide (c = sep) then [] :: splitOn sep s'
      else match splitOn sep s' with
           | [] => [[c]]
           | w :: ws => (c :: w) :: ws
           end
  end.

End JsString.

(** ** The change-case package (3.x) *)
Module ChangeCase.
Import JsString.

(** Modelled from the spec: [change-case] is a third-party package and is
    not part of the sources; the spec names the transformations
    (section 4.5) and gives their values on one name (section 8).  The
    definitions below follow the published algorithm of [no-case] and of the
    packages built on it, on ASCII input.

    First pass of [noCase]: [/([a-z0-9])([A-Z])/g] replaced by ["$1 $2"]. *)
Fixpoint splitCamel (s : list ascii) : list ascii :=
  match s with
  | c1 :: ((c2 :: rest) as tl) =>
      if (isLower c1 || isDigit c1) && isUpper c2
      then c1 :: " "%char :: c2 :: splitCamel rest
      else c1 :: splitCamel tl
  | _ => s
  end.

(** Modelled from the spec: second pass of [noCase],
    [/([A-Z])([A-Z][a-z])/g] replaced by ["$1 $2"]. *)
Fixpoint splitCamelUpper (s : list ascii) : list ascii :=
  match s with
  | c1 :: ((c2 :: c3 :: rest) as tl) =>
      if isUpper c1 && isUpper c2 && isLower c3
      then c1 :: " "%char :: c2 :: c3 :: splitCamelUpper rest
      else c1 :: splitCamelUpper tl
  | _ => s
  end.

(** Modelled from the spec: third pass of [noCase].  Every maximal run of
    non-word characters ([/[^A-Za-z0-9]+/g]) is replaced by the replacement
    string, or by nothing when the run starts or ends the string.
    [atStart] tells whether no character has been kept so far, [inRun]
    whether a run is pending. *)
Fixpoint replaceNonWord (replacement : list ascii) (atStart inRun : bool)
    (s : list ascii) : list ascii :=
  match s with
  | [] => []
  | c :: rest =>
      if isWord c
      then (if inRun && negb atStart then replacement else [])
             ++ c :: replaceNonWord replacement false false rest
      else replaceNonWord replacement atStart true rest
  end.

(** Modelled from the spec: [noCase(value, locale, replacement)] of
    [no-case]. *)
Definition noCaseWith (replacement : string) (value : string) : string :=
  toLowerCase
    (str (replaceNonWord (chars replacement) true false
            (splitCamelUpper (splitCamel (chars value))))).

(** Modelled from the spec: [noCase(value)], replacement [" "]. *)
Definition noCase (value : string) : string := noCaseWith " " value.

(** Modelled from the spec: [lowerCase] of [lower-case]. *)
Definition lowerCase (value : string) : string := toLowerCase value.

(** Modelled from the spec: [upperCase] of [upper-case]. *)
Definition upperCase (value : string) : string := toUpperCase value.

(** Modelled from the spec: in [camelCase], [/ (?=\d)/g] replaced by
    ["_"]. *)
Fixpoint underscoreBeforeDigit (s : list ascii) : list ascii :=
  match s with
  | c :: rest =>
      (if bool_decide (c = " "%char) &&
          match rest with d :: _ => isDigit d | [] => false end
       then "_"%char else c) :: underscoreBeforeDigit rest
  | [] => []
  end.

(** Modelled from the spec: [/sep(.)/g] replaced by the upper-cased
    character, the separator dropped when [keep] is false and kept
    otherwise. *)
Fixpoint upperAfter (sep : ascii) (keep : bool) (s : list ascii) : list ascii :=
  match s with
  | c :: ((d :: rest) as tl) =>
      if bool_decide (c = sep)
      then (if keep then [c] else []) ++ toUpperChar d :: upperAfter sep keep rest
      else c :: upperAfter sep keep tl
  | _ => s
  end.

(** Modelled from the spec: [upperCaseFirst] of [upper-case-first]. *)
Definition upperCaseFirst (s : string) : string :=
  match chars s with
  | [] => ""
  | c :: rest => str (toUpperChar c :: rest)
  end.

(** Modelled from the spec: [camelCase(value)] of [camel-case]
    ([mergeNumbers] not given). *)
Definition camelCase (value : string) : string :=
  str (upperAfter " "%char false (underscoreBeforeDigit (chars (noCase value)))).

(** Modelled from the spec: [pascalCase] of [pascal-case]. *)
Definition pascalCase (value : string) : string := upperCaseFirst (camelCase value).

(** Modelled from the spec: [kebabCase], the [param-case] package. *)
Definition kebabCase (value : string) : string := noCaseWith "-" value.

(** Modelled from the spec: [snakeCase] of [snake-case]. *)
Definition snakeCase (value : string) : string := noCaseWith "_" value.

(** Modelled from the spec: [constantCase] of [constant-case]. *)
Definition constantCase (value : string) : string := upperCase (snakeCase value).

(** Modelled from the spec: [dotCase] of [dot-case]. *)
Definition dotCase (value : string) : string := noCaseWith "." value.

(** Modelled from the spec: [titleCase] of [title-case],
    [noCase(value).replace(/^.| ./g, upper)]. *)
Definition titleCase (value : string) : string :=
  upperCaseFirst (str (upperAfter " "%char true (chars (noCase value)))).

(** Modelled from the spec: [headerCase] of [header-case],
    [noCase(value, locale, '-').replace(/^.|-./g, upper)]. *)
Definition headerCase (value : string) : string :=
  upperCaseFirst (str (upperAfter "-"%char true (chars (noCaseWith "-" value)))).

End ChangeCase.

(** ** Node's [path] module (POSIX flavour) *)
Module Path.
Import JsString.

(** One step of normalisation: [stack] holds the segments kept so far,
    last one first. *)
Definition pushSegment (absolute : bool) (stack : list string) (seg : string)
    : list string :=
  if bool_decide (seg = "") || bool_decide (seg = ".") then stack
  else if bool_decide (seg = "..") then
    match stack with
    | top :: below =>
        if bool_decide (top = "..") then seg :: stack else below
    | [] => if absolute then [] else [seg]
    end
  else seg :: stack.

Definition normalizeSegments (absolute : bool) (segs : list string) : list string :=
  rev (fold_left (pushSegment absolute) segs []).

Definition isAbsolute (p : string) : bool := startsWith (chars "/") (chars p).

Definition rawSegments (p : string) : list string :=
  map str (splitOn "/"%char (chars p)).

(** The segments of a path the file system is asked about; the paths the
    program builds are absolute, and a relative one is read from the
    root. *)
Definition segments (p : string) : list string :=
  normalizeSegments true (rawSegments p).

Definition render (segs : list string) : string := "/" +:+ join "/" segs.

(** [path.resolve(from, to)], [from] absolute. *)
Definition resolve (from to : string) : string :=
  if isAbsolute to then render (segments to)
  else render (segments (from +:+ "/" +:+ to)).

(** [path.resolve(a, b, c, d)]. *)
Definition resolve4 (a b c d : string) : string :=
  resolve (resolve (resolve a b) c) d.

(** [path.join(a, b)]: the two joined by a slash and normalised, a trailing
    slash kept. *)
Definition joinPath (a b : string) : string :=
  let joined :=
    if bool_decide (a = "") then b
    else if bool_decide (b = "") then a else a +:+ "/" +:+ b in
  let absolute := isAbsolute joined in
  let body := join "/" (normalizeSegments absolute (rawSegments joined)) in
  let trailing :=
    match rev (chars joined) with
    | c :: _ => bool_decide (c = "/"%char)
    | [] => false
    end in
  if absolute then
    "/" +:+ body +:+ (if trailing && negb (bool_decide (body = "")) then "/" else "")
  else if bool_decide (body = "") then (if trailing then "./" else ".")
  else body +:+ (if trailing then "/" else "").

(** [path.basename(p)]: the last segment, trailing slashes ignored. *)
Definition basename (p : string) : string :=
  match filter (λ seg, seg ≠ "") (rev (rawSegments p)) with
  | seg :: _ => seg
  | [] => ""
  end.

Fixpoint stripCommon (a b : list string) : list string * list string :=
  match a, b with
  | x :: a', y :: b' => if bool_decide (x = y) then stripCommon a' b' else (a, b)
  | _, _ => (a, b)
  end.

(** [path.relative(from, to)], both absolute. *)
Definition relative (from to : string) : string :=
  let '(up, down) := stripCommon (segments from) (segments to) in
  join "/" (map (λ _, "..") up ++ down).

End Path.

Import JsString ChangeCase Path.

(** ** The world: file system and console log *)

(** What a path of the file system holds.  Symbolic links are outside the
    model, so [lstat] and [stat] agree. *)
Inductive Node : Type :=
| File (content : string)
| Dir.

#[global] Instance Node_eq_dec : EqDecision Node.
Proof. solve_decision. Defined.

Definition isFile (n : option Node) : bool :=
  match n with Some (File _) => true | _ => false end.
Definition isDirectory (n : option Node) : bool :=
  match n with Some Dir => true | _ => false end.

(** One call of the logger of [@diez/cli-core], with its arguments;
    [loadingMessage] and the [stop] of the handle it returns are recorded in
    the same log. *)
Inductive LogEntry : Type :=
| Warning (args : list string)
| Info (args : list string)
| LoadingStart (message : string)
| LoadingStop.

Record World : Type := {
  fs : gmap (list string) Node;
  log : list LogEntry;
}.

Definition withFs (f : gmap (list string) Node) (w : World) : World :=
  {| fs := f; log := log w |}.
Definition withLog (l : list LogEntry) (w : World) : World :=
  {| fs := fs w; log := l |}.

(** ** Effects: state passing with exceptions

    A computation takes the world and gives back the world it leaves and
    either a value or the message of the [Error] it throws. *)
Inductive Outcome (A : Type) : Type :=
| Returned (a : A)
| Thrown (message : string).
Arguments Returned {A} a.
Arguments Thrown {A} message.

Definition M (A : Type) : Type := World → Outcome A * World.

Definition ret {A} (a : A) : M A := λ w, (Returned a, w).
Definition throw {A} (message : string) : M A := λ w, (Thrown message, w).
Definition bind {A B} (m : M A) (k : A → M B) : M B :=
  λ w, match m w with
       | (Returned a, w') => k a w'
       | (Thrown e, w') => (Thrown e, w')
       end.
(** [try { body } catch (error) { handler }]. *)
Definition tryCatch {A} (body : M A) (handler : string → M A) : M A :=
  λ w, match body w with
       | (Returned a, w') => (Returned a, w')
       | (Thrown e, w') => handler e w'
       end.

Declare Scope eff_scope.
Delimit Scope eff_scope with eff.
Bind Scope eff_scope with M.
Notation "'let*' x ':=' m 'in' k" := (bind m (λ x, k))
  (at level 10, x name, m at level 100, k at level 200) : eff_scope.
Notation "m ;; k" := (bind m (λ _, k))
  (at level 100, k at level 200, right associativity) : eff_scope.
Local Open Scope eff_scope.

Definition when (b : bool) (m : M unit) : M unit := if b then m else ret tt.

Definition emit (e : LogEntry) : M unit :=
  λ w, (Returned tt, withLog (log w ++ [e]) w).
Definition Log_warning (args : list string) : M unit := emit (Warning args).
Definition Log_info (args : list string) : M unit := emit (Info args).

Definition threw {A} (r : Outcome A * World) : bool :=
  match r with (Thrown _, _) => true | _ => false end.

(** ** The file-system primitives of [fs-extra] *)
Module Fs.

(** Modelled from the spec: [existsSync] of [fs-extra] (third-party, not
    part of the sources); section 4.3 speaks of what occupies a path. *)
Definition existsSync (p : string) : M bool :=
  λ w, (Returned (bool_decide (is_Some (fs w !! segments p))), w).

(** Modelled from the spec: [lstatSync(p).isDirectory()] of [fs-extra];
    [lstatSync] throws when nothing is at the path. *)
Definition lstatSync_isDirectory (p : string) : M bool :=
  λ w, match fs w !! segments p with
       | Some n => (Returned (isDirectory (Some n)), w)
       | None =>
           (Thrown ("ENOENT: no such file or directory, lstat '" +:+ p +:+ "'"), w)
       end.

(** Modelled from the spec: the walk of [mkdirsSync] over the prefixes of a
    path, shortest first: an existing directory is passed, a missing one is
    made, anything else stops the walk with the error of [mkdir]. *)
Fixpoint mkdirs (done rest : list string) (f : gmap (list string) Node)
    : option (gmap (list string) Node) :=
  match f !! done with
  | Some (File _) => None
  | here =>
      let f' := match here with None => <[done := Dir]> f | Some _ => f end in
      match rest with
      | [] => Some f'
      | seg :: rest' => mkdirs (done ++ [seg]) rest' f'
      end
  end.

(** Modelled from the spec: [ensureDirSync] of [fs-extra] ("creates the
    directory if absent", section 4.3): the directory and its missing
    ancestors are made; it throws, and makes nothing, when the path or one
    of its ancestors is not a directory. *)
Definition ensureDirSync (p : string) : M unit :=
  λ w, match mkdirs [] (segments p) (fs w) with
       | Some f' => (Returned tt, withFs f' w)
       | None => (Thrown ("EEXIST: file already exists, mkdir '" +:+ p +:+ "'"), w)
       end.

(** Modelled from the spec: writing one regular file below a directory made
    on demand, as the archive extractor and the template writer do
    (sections 4.4 and 4.5); it throws when the place is taken by a
    directory or lies below a regular file. *)
Definition outputFileSync (p : list string) (content : string) : M unit :=
  λ w, match mkdirs [] (removelast p) (fs w) with
       | Some f' =>
           if isDirectory (f' !! p) || bool_decide (p = [])
           then (Thrown ("EISDIR: illegal operation on a directory, open '"
                           +:+ render p +:+ "'"), withFs f' w)
           else (Returned tt, withFs (<[p := File content]> f') w)
       | None =>
           (Thrown ("ENOTDIR: not a directory, open '" +:+ render p +:+ "'"), w)
       end.

(** The regular files below a directory, each with its path relative to
    the directory. *)
Definition filesBelow (root : list string) (f : gmap (list string) Node)
    : list (list string * string) :=
  omap (λ '(p, n),
          match n with
          | File content =>
              if bool_decide (root `prefix_of` p) && negb (bool_decide (p = root))
              then Some (drop (length root) p, content) else None
          | Dir => None
          end)
       (map_to_list f).

End Fs.
Import Fs.


(** ** Placeholder substitution *)
Module Template.

(** A token set is the object literal handed to the template writer: keys
    with their values, in the order they are written. *)
Definition TokenSet : Type := list (string * string).

Fixpoint lookupToken (key : string) (tokens : TokenSet) : option string :=
  match tokens with
  | [] => None
  | (k, v) :: rest => if bool_decide (k = key) then Some v else lookupToken key rest
  end.

(** Modelled from the spec: the template language of the writer
    ([outputTemplatePackage] of [@diez/storage], not part of the sources).
    A placeholder is a token name between double braces (sections 3 and
    4.5); the token set of the source names the braces themselves, as the
    values of [openTag] and [closeTag], which are tokens like the others.
    The delimiters: *)
Definition openTag : list ascii := chars "{{".
Definition closeTag : list ascii := chars "}}".

(** Modelled from the spec: what a name stands for, the value of the token
    and the empty text when the set has no such token. *)
Definition tokenValue (tokens : TokenSet) (name : string) : string :=
  default "" (lookupToken name tokens).

(** The names the model reads between the delimiters: letters, digits and
    underscores, at least one. *)
Definition isNameChar (c : ascii) : bool := isWord c || bool_decide (c = "_"%char).
Definition validName (name : list ascii) : bool :=
  negb (bool_decide (name = [])) && forallb isNameChar name.

(** The characters before the first closing delimiter. *)
Fixpoint untilClose (s : list ascii) : option (list ascii) :=
  if startsWith closeTag s then Some []
  else match s with
       | [] => None
       | c :: rest => cons c <$> untilClose rest
       end.

(** A parsed text: characters to copy and placeholders to fill. *)
Inductive Segment : Type :=
| Text (c : ascii)
| Hole (name : string).

(** Modelled from the spec: one reading of a text, left to right.  An
    opening delimiter starts a placeholder, which runs to the next closing
    delimiter; everything else is text.  A placeholder that is not closed,
    or that holds anything but a name (a second opening delimiter, say), is
    a parse error: no result.  [skip] counts the characters of a placeholder
    still to be passed over. *)
Fixpoint parseFrom (skip : nat) (s : list ascii) : option (list Segment) :=
  match s with
  | [] => Some []
  | c :: rest =>
      match skip with
      | S k => parseFrom k rest
      | O =>
          if startsWith openTag s then
            match untilClose (drop (length openTag) s) with
            | Some name =>
                if validName name
                then cons (Hole (str name)) <$> parseFrom (length name + 3) rest
                else None
            | None => None
            end
          else cons (Text c) <$> parseFrom 0 rest
      end
  end.

Definition fill (tokens : TokenSet) (seg : Segment) : list ascii :=
  match seg with
  | Text c => [c]
  | Hole name => chars (tokenValue tokens name)
  end.

(** Modelled from the spec: the substitution pass on one text; every
    placeholder is replaced by the value of its token, inserted as it is. *)
Definition renderString (tokens : TokenSet) (s : string) : option string :=
  (λ segs, str (concat (map (fill tokens) segs))) <$> parseFrom 0 (chars s).

(** The names of the placeholders of a text. *)
Definition holes (s : string) : list string :=
  match parseFrom 0 (chars s) with
  | Some segs => omap (λ seg, match seg with Hole name => Some name | Text _ => None end) segs
  | None => []
  end.

(** A template tree: its regular files, each with the segments of its path
    below the template root and its content. *)
Definition Tree : Type := list (list string * string).

Fixpoint renderPath (tokens : TokenSet) (p : list string) : option (list string) :=
  match p with
  | [] => Some []
  | seg :: rest =>
      match renderString tokens seg, renderPath tokens rest with
      | Some seg', Some rest' => Some (seg' :: rest')
      | _, _ => None
      end
  end.

(** Modelled from the spec: the pass on one file rewrites the placeholders
    in its name and in its content (sections 2 and 4.5). *)
Definition renderFile (tokens : TokenSet) (file : list string * string)
    : option (list string * string) :=
  match renderPath tokens file.1, renderString tokens file.2 with
  | Some p', Some content' => Some (p', content')
  | _, _ => None
  end.

(** Modelled from the spec: the substitution pass over a tree, file by
    file; it has a result when every file can be read. *)
Fixpoint substituteTree (tokens : TokenSet) (tree : Tree) : option Tree :=
  match tree with
  | [] => Some []
  | file :: rest =>
      match renderFile tokens file, substituteTree tokens rest with
      | Some file', Some rest' => Some (file' :: rest')
      | _, _ => None
      end
  end.

(** The names of the placeholders of a tree, in names and contents. *)
Definition treeHoles (tree : Tree) : list string :=
  flat_map (λ file : list string * string, flat_map holes file.1 ++ holes file.2) tree.

(** Whether the value a name stands for is free of the opening brace. *)
Definition plainValue (tokens : TokenSet) (name : string) : bool :=
  forallb (λ c, negb (bool_decide (c = "{"%char))) (chars (tokenValue tokens name)).

End Template.
Import Template.

(** ** The validate-npm-package-name package *)
Module NpmName.

Record ValidationResult : Type := {
  validForNewPackages : bool;
  validForOldPackages : bool;
  warnings : option (list string);
  errors : option (list string);
}.

Definition quote : string := String (ascii_of_nat 34) EmptyString.

Definition blacklist : list string := ["node_modules"; "favicon.ico"].

(** The names of the core modules, as the [builtins] package lists them. *)
Definition builtins : list string :=
  ["assert"; "buffer"; "child_process"; "cluster"; "console"; "constants";
   "crypto"; "dgram"; "dns"; "domain"; "events"; "fs"; "http"; "https";
   "module"; "net"; "os"; "path"; "punycode"; "querystring"; "readline";
   "repl"; "stream"; "string_decoder"; "sys"; "timers"; "tls"; "tty"; "url";
   "util"; "vm"; "zlib"; "v8"; "process"; "async_hooks"; "http2";
   "perf_hooks"].

Definition isSpace (c : ascii) : bool :=
  between 9 13 c || bool_decide (code c = 32) || bool_decide (code c = 160).

Fixpoint dropSpaces (s : list ascii) : list ascii :=
  match s with
  | c :: rest => if isSpace c then dropSpaces rest else s
  | [] => []
  end.

(** [s.trim()]. *)
Definition trim (s : string) : string :=
  str (rev (dropSpaces (rev (dropSpaces (chars s))))).

(** The characters [encodeURIComponent] leaves as they are. *)
Definition isUnreserved (c : ascii) : bool :=
  isWord c || bool_decide (c ∈ chars "-_.!~*'()").

(** [encodeURIComponent(s) === s]. *)
Definition urlFriendly (s : list ascii) : bool := forallb isUnreserved s.

(** The match of [^(?:@([^/]+?)[/])?([^/]+?)$] with the scope present:
    user and package. *)
Definition scopedParts (name : string) : option (list ascii * list ascii) :=
  match chars name with
  | c :: rest =>
      if bool_decide (c = "@"%char) then
        match splitOn "/"%char rest with
        | [user; pkg] =>
            if bool_decide (user = []) || bool_decide (pkg = []) then None
            else Some (user, pkg)
        | _ => None
        end
      else None
  | [] => None
  end.

Definition done (warnings errors : list string) : ValidationResult :=
  {| validForNewPackages := bool_decide (errors = []) && bool_decide (warnings = []);
     validForOldPackages := bool_decide (errors = []);
     warnings := if bool_decide (warnings = []) then None else Some warnings;
     errors := if bool_decide (errors = []) then None else Some errors |}.

Definition check (failed : bool) (message : string) : list string :=
  if failed then [message] else [].

(** Modelled from the spec: [validateNpmPackageName] of
    [validate-npm-package-name] (third-party, not part of the sources),
    which rejects reserved words and illegal characters (section 8); the
    checks are those of the package, on a string argument. *)
Definition validateNpmPackageName (name : string) : ValidationResult :=
  let lower := toLowerCase name in
  let errors :=
    check (bool_decide (name = "")) "name length must be greater than zero"
    ++ check (startsWith (chars ".") (chars name)) "name cannot start with a period"
    ++ check (startsWith (chars "_") (chars name)) "name cannot start with an underscore"
    ++ check (negb (bool_decide (trim name = name)))
         "name cannot contain leading or trailing spaces"
    ++ flat_map (λ b, check (bool_decide (lower = b)) (b +:+ " is a blacklisted name"))
         blacklist in
  let warnings :=
    flat_map (λ b, check (bool_decide (lower = b)) (b +:+ " is a core module name"))
      builtins
    ++ check (Nat.ltb 214 (String.length name))
         "name can no longer contain more than 214 characters"
    ++ check (negb (bool_decide (lower = name)))
         "name can no longer contain capital letters"
    ++ check (existsb (λ c, bool_decide (c ∈ chars "~'!()*"))
                (default [] (last (splitOn "/"%char (chars name)))))
         ("name can no longer contain special characters (" +:+ quote
            +:+ "~'!()*" +:+ quote +:+ ")") in
  if urlFriendly (chars name) then done warnings errors
  else match scopedParts name with
       | Some (user, pkg) =>
           if urlFriendly user && urlFriendly pkg then done warnings errors
           else done warnings (errors ++ ["name can only contain URL-friendly characters"])
       | None =>
           done warnings (errors ++ ["name can only contain URL-friendly characters"])
       end.

End NpmName.
Import NpmName.

(** ** What the run is given

    The values and collaborators [utils.ts] imports and does not define. *)

(** The value of [spawnSync('npm', ['config', 'list']).output.join('')]: the
    expression throws (no output to join), or it has a value, which JS lets be
    a string or not. *)
Inductive JsValue : Type :=
| JsString (s : string)
| JsOther.

Inductive SpawnResult : Type :=
| SpawnThrows
| SpawnJoined (childOutput : JsValue).

(** What [await downloadStream(url)] gives: a rejection, or a stream (here
    the files of the archive it carries, paths relative to the archive
    root) or nothing. *)
Inductive DownloadResult : Type :=
| DownloadRejects (message : string)
| DownloadResolves (stream : option Tree).

Record Env : Type := {
  diezVersion : string;                      (* @diez/cli-core *)
  devDependencies_typescript : string;       (* devDependencies.typescript *)
  canRunCommand : string → bool;             (* @diez/cli-core *)
  execSucceeds : string → string → bool;     (* execAsync: command, cwd *)
  Format_code : string → string;             (* Format.code *)
  Format_comment : string → string;          (* Format.comment *)
  downloadStream : string → DownloadResult;  (* @diez/storage *)
  getTempFileName : string;                  (* @diez/storage *)
  spawnSync_npm_config_list : SpawnResult;   (* child_process *)
  gitSucceeds : string → bool;               (* ./utils.git *)
  dirname : string;                          (* __dirname *)
}.

Definition nl : string := String (ascii_of_nat 10) EmptyString.

Section CreateProject.
Context (env : Env).

Definition examplesProjectUrl : string :=
  "https://examples.diez.org/" +:+ diezVersion env +:+ "/createproject/project.tgz".

(** Validates that a package name is valid and nonconflicting. *)
Definition validatePackageName (packageName : string) : M unit :=
  let validationResult := validateNpmPackageName packageName in
  if negb (validForNewPackages validationResult) then
    let warnings :=
      match errors validationResult with
      | Some es => map (λ message, " - " +:+ message) es
      | None => []
      end
      ++ match NpmName.warnings validationResult with
         | Some ws => map (λ message, " - " +:+ message) ws
         | None => []
         end in
    when (negb (bool_decide (warnings = [])))
      (Log_warning ["Project name validation failed:"];; Log_warning warnings);;
    throw ("Unable to create project with name " +:+ packageName +:+ ".")
  else ret tt.

(** Whether we are equipped to use [yarn]. *)
Definition shouldUseYarn : bool := canRunCommand env "yarnpkg --version".

Definition isLineTerminator (c : ascii) : bool :=
  bool_decide (code c = 10) || bool_decide (code c = 13).

Fixpoint restOfLine (s : list ascii) : list ascii :=
  match s with
  | c :: rest => if isLineTerminator c then [] else c :: restOfLine rest
  | [] => []
  end.

Definition cwdPrefix : list ascii := chars "; cwd = ".

(** The match of [childOutput] against the multi-line pattern of the
    source, a line start followed by the prefix and a capture of any
    characters up to the line end: the first position that starts a line and
    carries the prefix; the capture runs to the end of that line.
    [lineStart] tells whether the position starts a line. *)
Fixpoint matchCwd (lineStart : bool) (s : list ascii) : option (list ascii) :=
  match s with
  | [] => None
  | c :: rest =>
      if lineStart && startsWith cwdPrefix s
      then Some (restOfLine (drop (length cwdPrefix) s))
      else matchCwd (isLineTerminator c) rest
  end.

(** Whether [npm] can be used in the given root as fallback. *)
Definition canUseNpm (root : string) : bool :=
  match spawnSync_npm_config_list env with
  | SpawnThrows => true
  | SpawnJoined childOutput =>
      match childOutput with
      | JsOther => true
      | JsString output =>
          match matchCwd true (chars output) with
          | None => true
          | Some captured => bool_decide (str captured = root)
          end
      end
  end.

(** Validates that a directory can be used as a project root. *)
Definition validateProjectRoot (root : string) (useYarn : bool) : M unit :=
  let* taken :=
    (let* here := existsSync root in
     if here then let* isDir := lstatSync_isDirectory root in ret (negb isDir)
     else ret false) in
  if taken then throw ("Found a non-directory at " +:+ root +:+ ".")
  else
    ensureDirSync root;;
    let* hasPackageJson := existsSync (joinPath root "package.json") in
    if hasPackageJson
    then throw ("A Node.js project already exists at " +:+ root +:+ ".")
    else if useYarn then ret tt
    else if negb (canUseNpm root)
    then throw ("Unable to start an NPM process in " +:+ root +:+ ".")
    else ret tt.

(** Modelled from the spec: the extractor of the [tar] package
    ([x({cwd: templateRoot})], third-party): the files of the archive are
    written below [templateRoot] (section 4.4), one after the other.  An
    entry that cannot be written is passed over, the extractor going on with
    the next one; nothing is thrown. *)
Fixpoint extractEntries (base : list string) (archive : Tree) : M unit :=
  match archive with
  | [] => ret tt
  | (p, content) :: more =>
      tryCatch (outputFileSync (base ++ p) content) (λ _, ret tt);;
      extractEntries base more
  end.

(** The promise of the source resolves when the extractor closes and has no
    way to reject: once there is a stream, the step returns. *)
Definition extract (templateRoot : string) (archive : Tree) : M unit :=
  extractEntries (segments templateRoot) archive.

Definition downloadAndExtractProject (templateRoot : string) : M unit :=
  Log_info ["Downloading template project from the Diez CDN..."];;
  match downloadStream env examplesProjectUrl with
  | DownloadRejects message => throw message
  | DownloadResolves None =>
      throw "Unable to download template project from examples.diez.org. Please try again."
  | DownloadResolves (Some stream) => extract templateRoot stream
  end.

(** Modelled from the spec: the files of a template are written one after
    the other, each with the placeholders of its name and of its content
    replaced; a file that cannot be read as a template, or written, stops
    the run with what was written before it left in place (section 5). *)
Fixpoint outputTemplateFiles (tokens : TokenSet) (base : list string) (files : Tree)
    : M unit :=
  match files with
  | [] => ret tt
  | file :: more =>
      match renderFile tokens file with
      | Some (p, content) =>
          outputFileSync (base ++ p) content;;
          outputTemplateFiles tokens base more
      | None => throw ("Parse error in template " +:+ render file.1)
      end
  end.

(** Modelled from the spec: [outputTemplatePackage] of [@diez/storage] (a
    package of this repository that is not part of the sources).  It
    copies the tree below [templateRoot] into [outputRoot] with the
    placeholders of the token set replaced (sections 4.4 and 4.5); it
    throws when there is no directory at [templateRoot]. *)
Definition outputTemplatePackage (templateRoot outputRoot : string)
    (tokens : TokenSet) : M unit :=
  λ w,
    if isDirectory (fs w !! segments templateRoot) then
      outputTemplateFiles tokens (segments outputRoot)
        (filesBelow (segments templateRoot) (fs w)) w
    else
      (Thrown ("ENOENT: no such file or directory, scandir '" +:+ templateRoot +:+ "'"), w).

(** The token set [createTemplateProject] hands to the template writer. *)
Definition templateTokens (name : string) : TokenSet :=
  let pascalCased := pascalCase name in
  let lowerCased := lowerCase pascalCased in
  [ ("openTag", "{{");
    ("closeTag", "}}");
    ("namePascalCase", pascalCased);
    ("nameLowerCase", lowerCased);
    ("nameKebabCase", kebabCase name);
    ("nameCamelCase", camelCase name);
    ("nameTitleCase", titleCase name);
    ("nameNoCase", noCase name);
    ("nameSnakeCase", snakeCase name);
    ("nameConstantCase", constantCase name);
    ("nameHeaderCase", headerCase name);
    ("nameDotCase", dotCase name) ].

Definition templateRootOf : string := resolve (getTempFileName env) "examples".

Definition createTemplateProject (cwd name : string) : M unit :=
  let templateRoot := templateRootOf in
  ensureDirSync templateRoot;;
  downloadAndExtractProject templateRoot;;
  outputTemplatePackage templateRoot cwd (templateTokens name).

(** The token set of the bare template. *)
Definition bareTokens (packageName : string) : TokenSet :=
  [ ("packageName", packageName);
    ("diezVersion", diezVersion env);
    ("typescriptVersion", devDependencies_typescript env);
    ("componentName", pascalCase (basename packageName)) ].

Definition bareTemplateRoot : string :=
  resolve4 (dirname env) ".." "templates" "project".

(** [execAsync(command, {cwd})]: rejects when the command fails.  The world
    holds the files the program itself reads and writes: what the child
    process does to the disk (an installation fills, and may prune,
    [node_modules]) is outside of it.  A statement about [fs] after this
    step therefore speaks of the writes of the program, not of the disk the
    package manager leaves. *)
Definition execAsync (command cwd : string) : M unit :=
  if execSucceeds env command cwd then ret tt
  else throw ("Command failed: " +:+ command).

(** [initializeGitRepository(root)] of [./utils.git]; what [git] writes
    below the root is outside of the world, like the writes of the package
    manager. *)
Definition initializeGitRepository (root : string) : M unit :=
  if gitSucceeds env root then ret tt
  else throw "Unable to initialize a Git repository.".

Definition loadingMessage (message : string) : M unit := emit (LoadingStart message).
Definition message_stop : M unit := emit LoadingStop.

Definition pm (useYarn : bool) (yarn npm : string) : string :=
  if useYarn then yarn else npm.

Definition rootOf (cwd packageName : string) : string :=
  resolve cwd (basename packageName).

(** The part of [createProject] after the template is in place. *)
Definition installAndReport (bare useYarn : bool) (cwd root : string) : M unit :=
  loadingMessage "Installing dependencies. This might take a couple of minutes.";;
  tryCatch
    (execAsync (pm useYarn "yarn" "npm" +:+ " install") root)
    (λ _,
       Log_warning ["Unable to install dependencies. Are you connected to the Internet?"];;
       Log_warning ["You may need to run "
                      +:+ Format_code env (pm useYarn "yarn" "npm" +:+ " install")
                      +:+ " before " +:+ Format_code env "diez"
                      +:+ " commands will work."]);;
  message_stop;;
  tryCatch
    (initializeGitRepository root;;
     Log_info ["Initialized a Git repository at " +:+ root])
    (λ _, ret tt);;
  Log_info ["Success! A new Diez (DS) has been created at "
              +:+ Format_comment env root +:+ "." +:+ nl];;
  Log_info ["In that directory, the " +:+ Format_code env "diez"
              +:+ " command line utility can be invoked using:" +:+ nl +:+ "  "
              +:+ Format_code env (pm useYarn "yarn" "npm run" +:+ " diez") +:+ nl];;
  if bare then
    Log_info ["To see a list of available commands, you can run:" +:+ nl +:+ "  "
                +:+ Format_code env
                      ("cd " +:+ relative cwd root +:+ nl +:+ "  "
                         +:+ pm useYarn "yarn" "npm run" +:+ " diez --help")]
  else
    Log_info ["To get started, we suggest running:" +:+ nl +:+ "  "
                +:+ Format_code env
                      ("cd " +:+ relative cwd root +:+ nl +:+ "  "
                         +:+ pm useYarn "yarn" "npm run" +:+ " demo") +:+ nl];;
    Log_info ["Check out https://beta.diez.org/getting-started to learn more."].

(** The template stage of [createProject]. *)
Definition acquireTemplate (packageName : string) (bare : bool) (cwd root : string)
    : M unit :=
  if bare then
    outputTemplatePackage bareTemplateRoot root (bareTokens packageName)
  else
    tryCatch
      (createTemplateProject cwd packageName)
      (λ error,
         Log_warning ["Unable to download template project from the Diez CDN. Are you connected to the internet?"];;
         Log_warning ["If you would like to generate an empty project, you can re-run this command with "
                        +:+ Format_code env "--bare" +:+ "."];;
         throw error).

(** Creates a project with the given name in the specified current working
    directory. *)
Definition createProject (packageName : string) (bare : bool) (cwd : string) : M unit :=
  validatePackageName packageName;;
  let useYarn := shouldUseYarn in
  let root := rootOf cwd packageName in
  validateProjectRoot root useYarn;;
  acquireTemplate packageName bare cwd root;;
  installAndReport bare useYarn cwd root.

End CreateProject.

(** The lines of a text, cut at the line terminators, and those among them
    that carry the prefix of the working-directory line of [npm config
    list]. *)
Fixpoint linesOf (s : list ascii) : list (list ascii) :=
  match s with
  | [] => [[]]
  | c :: rest =>
      if isLineTerminator c then [] :: linesOf rest
      else match linesOf rest with
           | [] => [[c]]
           | l :: ls => (c :: l) :: ls
           end
  end.

Definition cwdLines (output : string) : list (list ascii) :=
  List.filter (startsWith cwdPrefix) (linesOf (chars output)).

(** The path a working-directory line names. *)
Definition cwdOfLine (line : list ascii) : string :=
  str (drop (length cwdPrefix) line).

Definition firstCwd (ls : list (list ascii)) : option (list ascii) :=
  drop (length cwdPrefix) <$> head (List.filter (startsWith cwdPrefix) ls).

(** The transformation each name token is named after. *)
Definition transformationOf (key : string) : option (string → string) :=
  if bool_decide (key = "namePascalCase") then Some pascalCase
  else if bool_decide (key = "nameLowerCase") then Some lowerCase
  else if bool_decide (key = "nameKebabCase") then Some kebabCase
  else if bool_decide (key = "nameCamelCase") then Some camelCase
  else if bool_decide (key = "nameTitleCase") then Some titleCase
  else if bool_decide (key = "nameNoCase") then Some noCase
  else if bool_decide (key = "nameSnakeCase") then Some snakeCase
  else if bool_decide (key = "nameConstantCase") then Some constantCase
  else if bool_decide (key = "nameHeaderCase") then Some headerCase
  else if bool_decide (key = "nameDotCase") then Some dotCase
  else None.

(** A tree whose one file spells a placeholder with the brace tokens. *)
Definition bracesTree : Tree :=
  [(["README.md"], "{{openTag}}nameKebabCase{{closeTag}}")].

(** Whether a text starts with the opening brace. *)
Definition braceFirst (l : list ascii) : bool :=
  match l with
  | c :: _ => bool_decide ("{"%char = c)
  | [] => false
  end.

(** The characters the case transformations produce: letters, digits and
    the four separators. *)
Definition isCaseChar (c : ascii) : bool :=
  isWord c || bool_decide (c ∈ chars " _-.").

(** ** Shapes of file systems and of changes *)

(** A file system is well formed when everything below the root sits in a
    directory: the proper ancestors of an occupied path are directories. *)
Definition wf_fs (f : gmap (list string) Node) : Prop :=
  ∀ p q n, f !! p = Some n → q `prefix_of` p → q ≠ p → f !! q = Some Dir.

(** [f'] is [f] with, at most, missing directories made on the way to
    [target]: every path holds what it held, or held nothing, is an ancestor
    of the target or the target itself, and is now a directory. *)
Definition onlyDirsAdded (target : list string) (f f' : gmap (list string) Node) : Prop :=
  ∀ p, f' !! p = f !! p
       ∨ (f !! p = None ∧ f' !! p = Some Dir ∧ p `prefix_of` target).

(** [f'] is [f] changed within the given roots only: a path holds what it
    held, or lies at or below one of the roots, or is a missing ancestor of
    one of them made as a directory. *)
Definition writesWithin (roots : list (list string)) (f f' : gmap (list string) Node)
    : Prop :=
  ∀ p, f' !! p = f !! p
       ∨ (∃ b, b ∈ roots ∧ b `prefix_of` p)
       ∨ (f !! p = None ∧ f' !! p = Some Dir ∧ ∃ b, b ∈ roots ∧ p `prefix_of` b).

(** A computation keeps the file system within a relation, whatever its
    outcome. *)
Definition keeps {A : Type} (R : relation (gmap (list string) Node)) (m : M A) : Prop :=
  ∀ w r w', m w = (r, w') → R (fs w) (fs w').

(** The name and the root have been validated: the first two steps of
    [createProject] return and leave the world [w1]. *)
Definition validated (env : Env) (packageName cwd : string) (w w1 : World) : Prop :=
  (validatePackageName packageName;;
   validateProjectRoot env (rootOf cwd packageName) (shouldUseYarn env)) w
  = (Returned tt, w1).

(** The archive of the sample runs: a file at the top of the archive and a
    project directory named by a placeholder. *)
Definition sampleArchive : Tree :=
  [ (["README.md"], "# {{nameTitleCase}}");
    (["{{nameKebabCase}}"; "package.json"], "{ name: {{nameKebabCase}} }") ].

(** An archive whose files lie below one directory, named by the
    kebab-case placeholder. *)
Definition rootedArchive : Tree :=
  [ (["{{nameKebabCase}}"; "package.json"], "{ name: {{nameKebabCase}} }");
    (["{{nameKebabCase}}"; "README.md"], "# {{nameTitleCase}}") ].

(** [f'] holds every path [f] holds, with its kind: a directory is still a
    directory and a regular file still a regular file (its content may have
    changed). *)
Definition kindKept (f f' : gmap (list string) Node) : Prop :=
  ∀ p, (f !! p = Some Dir → f' !! p = Some Dir)
       ∧ (isFile (f !! p) = true → isFile (f' !! p) = true).

Definition isWarning (e : LogEntry) : bool :=
  match e with Warning _ => true | _ => false end.

(** A text after which a line starts: the empty text, or one that ends with
    a line terminator. *)
Definition endsLine (s : string) : bool :=
  match rev (chars s) with
  | [] => true
  | c :: _ => isLineTerminator c
  end.

(** A text up to which a line runs: the empty text, or one that starts with
    a line terminator. *)
Definition startsLineEnd (s : string) : bool :=
  match chars s with
  | [] => true
  | c :: _ => isLineTerminator c
  end.

(** The messages [validatePackageName] logs for a validation result: the
    errors, then the warnings, each as a list item. *)
Definition validationMessages (r : ValidationResult) : list string :=
  map (λ message, " - " +:+ message) (default [] (errors r))
  ++ map (λ message, " - " +:+ message) (default [] (NpmName.warnings r)).

(** The carriage return, for outputs with Windows line ends. *)
Definition cr : string := String (ascii_of_nat 13) EmptyString.

(** ** Sample runs

    The environments and worlds the statements below are evaluated on. *)

Definition sampleEnv (childOutput : SpawnResult) (download : DownloadResult)
    (installs : bool) : Env := {|
  diezVersion := "10.2.3";
  devDependencies_typescript := "^3.7.2";
  canRunCommand := λ _, false;
  execSucceeds := λ _ _, installs;
  Format_code := λ s, "`" +:+ s +:+ "`";
  Format_comment := λ s, s;
  downloadStream := λ _, download;
  getTempFileName := "/tmp/diez-1";
  spawnSync_npm_config_list := childOutput;
  gitSucceeds := λ _, true;
  dirname := "/usr/lib/node_modules/diez/lib";
|}.

Definition npmEnv (childOutput : SpawnResult) : Env :=
  sampleEnv childOutput (DownloadResolves None) true.

(** The output of [npm config list] run in the given directory. *)
Definition npmOutput (cwd : string) : SpawnResult :=
  SpawnJoined (JsString ("; cli configs" +:+ nl +:+ "; cwd = " +:+ cwd +:+ nl
                           +:+ "; HOME = /home/u")).

(** A home directory, empty, and the same with a project in it and with a
    regular file where a project would go. *)
Definition homeFs : gmap (list string) Node :=
  <[ ["home"; "u"] := Dir ]> (<[ ["home"] := Dir ]> (<[ [] := Dir ]> ∅)).
Definition homeWorld : World := {| fs := homeFs; log := [] |}.
Definition projectWorld : World :=
  {| fs := <[ ["home"; "u"; "app"; "package.json"] := File "{}" ]>
             (<[ ["home"; "u"; "app"] := Dir ]> homeFs);
     log := [] |}.
Definition fileWorld : World :=
  {| fs := <[ ["home"; "u"; "app"] := File "notes" ]> homeFs; log := [] |}.

(** An environment in which yarn can be run. *)
Definition yarnEnv (download : DownloadResult) (git : bool) : Env := {|
  diezVersion := "10.2.3";
  devDependencies_typescript := "^3.7.2";
  canRunCommand := λ _, true;
  execSucceeds := λ _ _, true;
  Format_code := λ s, "`" +:+ s +:+ "`";
  Format_comment := λ s, s;
  downloadStream := λ _, download;
  getTempFileName := "/tmp/diez-1";
  spawnSync_npm_config_list := SpawnThrows;
  gitSucceeds := λ _, git;
  dirname := "/usr/lib/node_modules/diez/lib";
|}.

(** The home directory beside an installation with its bundled template. *)
Definition bundledFs : gmap (list string) Node :=
  <[ ["usr"; "lib"; "node_modules"; "diez"; "templates"; "project"; "package.json"]
       := File "{ name: {{packageName}}, component: {{componentName}} }" ]>
  (<[ ["usr"; "lib"; "node_modules"; "diez"; "templates"; "project"] := Dir ]>
  (<[ ["usr"; "lib"; "node_modules"; "diez"; "templates"] := Dir ]>
  (<[ ["usr"; "lib"; "node_modules"; "diez"] := Dir ]>
  (<[ ["usr"; "lib"; "node_modules"] := Dir ]>
  (<[ ["usr"; "lib"] := Dir ]>
  (<[ ["usr"] := Dir ]> homeFs)))))).
Definition bundledWorld : World := {| fs := bundledFs; log := [] |}.


(** The prefixes of a path, shortest first, and well-formedness as a
    test. *)
Definition prefixes (p : list string) : list (list string) :=
  map (λ i, take i p) (seq 0 (S (length p))).

Definition wf_fsb (f : gmap (list string) Node) : bool :=
  forallb (λ '(p, _), forallb (λ q, bool_decide (q = p) || isDirectory (f !! q)) (prefixes p))
          (map_to_list f).

(** * Properties *)

(** ** The models on known values *)

Example noCase_values :
  noCase "camelCase" = "camel case"
  ∧ noCase "XMLHttpRequest" = "xml http request"
  ∧ noCase "  some--odd__name.. " = "some odd name"
  ∧ camelCase "test string" = "testString"
  ∧ titleCase "a simple test" = "A Simple Test"
  ∧ headerCase "test string" = "Test-String"
  ∧ dotCase "test string" = "test.string".
Proof. repeat split; vm_compute; reflexivity. Qed.

Example path_values :
  basename "@acme/my-app" = "my-app"
  ∧ basename "my-app/" = "my-app"
  ∧ resolve "/home/u" "my-app" = "/home/u/my-app"
  ∧ resolve "/home/u" ".." = "/home"
  ∧ joinPath "/home/u/my-app" "package.json" = "/home/u/my-app/package.json"
  ∧ relative "/home/u" "/home/u/my-app" = "my-app"
  ∧ segments "/home/u/./x/../my-app/" = ["home"; "u"; "my-app"].
Proof. repeat split; vm_compute; reflexivity. Qed.

Example validateNpmPackageName_values :
  validForNewPackages (validateNpmPackageName "my-cool-app") = true
  ∧ validForNewPackages (validateNpmPackageName "@acme/my-app") = true
  ∧ NpmName.warnings (validateNpmPackageName "http") = Some ["http is a core module name"]
  ∧ errors (validateNpmPackageName "node_modules") = Some ["node_modules is a blacklisted name"]
  ∧ errors (validateNpmPackageName "my app")
    = Some ["name can only contain URL-friendly characters"]
  ∧ validForNewPackages (validateNpmPackageName "MyApp") = false.
Proof. repeat split; vm_compute; reflexivity. Qed.

(** A run of the whole workflow: the remote template of "my-cool-app" in an
    empty home directory, with [npm] and a failing installation. *)
Example createProject_run :
  let env := sampleEnv (npmOutput "/home/u/my-cool-app")
                       (DownloadResolves (Some sampleArchive)) false in
  ∃ w', createProject env "my-cool-app" false "/home/u" homeWorld = (Returned tt, w')
        ∧ fs w' !! ["home"; "u"; "my-cool-app"; "package.json"]
          = Some (File "{ name: my-cool-app }")
        ∧ log w'
          = [ Info ["Downloading template project from the Diez CDN..."];
              LoadingStart "Installing dependencies. This might take a couple of minutes.";
              Warning ["Unable to install dependencies. Are you connected to the Internet?"];
              Warning ["You may need to run `npm install` before `diez` commands will work."];
              LoadingStop;
              Info ["Initialized a Git repository at /home/u/my-cool-app"];
              Info ["Success! A new Diez (DS) has been created at /home/u/my-cool-app."
                      +:+ nl];
              Info ["In that directory, the `diez` command line utility can be invoked using:"
                      +:+ nl +:+ "  `npm run diez`" +:+ nl];
              Info ["To get started, we suggest running:" +:+ nl +:+ "  `cd my-cool-app"
                      +:+ nl +:+ "  npm run demo`" +:+ nl];
              Info ["Check out https://beta.diez.org/getting-started to learn more."] ].
Proof.
  intros env. eexists. split; [vm_compute; reflexivity|].
  split; vm_compute; reflexivity.
Qed.

(** ** The token set *)

(** C7: for the project name "my-cool-app" the token set built by
    [createTemplateProject] holds the PascalCase value "MyCoolApp", the
    kebab-case value "my-cool-app", the snake_case value "my_cool_app" and
    the CONSTANT_CASE value "MY_COOL_APP". *)
Theorem templateTokens_my_cool_app :
  lookupToken "namePascalCase" (templateTokens "my-cool-app") = Some "MyCoolApp"
  ∧ lookupToken "nameKebabCase" (templateTokens "my-cool-app") = Some "my-cool-app"
  ∧ lookupToken "nameSnakeCase" (templateTokens "my-cool-app") = Some "my_cool_app"
  ∧ lookupToken "nameConstantCase" (templateTokens "my-cool-app") = Some "MY_COOL_APP".
Proof. repeat split; vm_compute; reflexivity. Qed.

(** C9, as stated, fails: the lower-case token of "my-cool-app" is
    "mycoolapp", the lower-case transformation of the name is
    "my-cool-app". *)
Lemma nameLowerCase_not_lowerCase_of_name :
  transformationOf "nameLowerCase" = Some lowerCase
  ∧ lookupToken "nameLowerCase" (templateTokens "my-cool-app") = Some "mycoolapp"
  ∧ lowerCase "my-cool-app" = "my-cool-app"
  ∧ lookupToken "nameLowerCase" (templateTokens "my-cool-app")
      ≠ Some (lowerCase "my-cool-app").
Proof. repeat split; vm_compute; congruence. Qed.

(** C9, amended: every name token but the lower-case one is its
    transformation applied to the name given to [createTemplateProject]; the
    lower-case token is the lower-case transformation of the PascalCase
    token; the two remaining entries are the delimiter markers. *)
Theorem templateTokens_transformations (name key value : string) :
  lookupToken key (templateTokens name) = Some value →
  (key = "openTag" ∧ value = "{{")
  ∨ (key = "closeTag" ∧ value = "}}")
  ∨ (key = "nameLowerCase" ∧ value = lowerCase (pascalCase name)
     ∧ lookupToken "namePascalCase" (templateTokens name) = Some (pascalCase name))
  ∨ (key ≠ "nameLowerCase" ∧ ∃ f, transformationOf key = Some f ∧ value = f name).
Proof.
  intros H. unfold templateTokens in H; cbn [lookupToken] in H.
  repeat (case_bool_decide;
          [ subst key; injection H as <-;
            first [ left; split; reflexivity
                  | right; left; split; reflexivity
                  | right; right; left; repeat split; reflexivity
                  | right; right; right; split; [discriminate|];
                    eexists; split; reflexivity ]
          | ]).
  discriminate H.
Qed.

Lemma templateTokens_transformations_witness :
  lookupToken "nameDotCase" (templateTokens "my-cool-app") = Some "my.cool.app"
  ∧ ∃ f, transformationOf "nameDotCase" = Some f ∧ "my.cool.app" = f "my-cool-app".
Proof.
  split; [reflexivity|].
  destruct (templateTokens_transformations "my-cool-app" "nameDotCase" "my.cool.app")
    as [[H _]|[[H _]|[[H _]|[_ H]]]]; [reflexivity | discriminate H .. | exact H].
Defined.

(** ** Placeholder substitution *)

Section Substitution.
Context (tokens : TokenSet).

Lemma parseFrom_drop (s : list ascii) (k : nat) :
  parseFrom k s = parseFrom 0 (drop k s).
Proof.
  revert k; induction s as [|c rest IH]; intros [|k]; try reflexivity.
  cbn [parseFrom drop]. apply IH.
Qed.

Lemma parseFrom_cons (c : ascii) (rest : list ascii) :
  parseFrom 0 (c :: rest)
  = if startsWith openTag (c :: rest) then
      match untilClose (drop (length openTag) (c :: rest)) with
      | Some name =>
          if validName name
          then cons (Hole (str name)) <$> parseFrom (length name + 3) rest
          else None
      | None => None
      end
    else cons (Text c) <$> parseFrom 0 rest.
Proof. reflexivity. Qed.

Lemma startsWith_openTag (c : ascii) (l : list ascii) :
  startsWith openTag (c :: l) = bool_decide ("{"%char = c) && braceFirst l.
Proof. destruct l as [|d l]; cbn; by rewrite ?andb_true_r. Qed.

(** A text without the opening delimiter is text all through. *)
Lemma parseFrom_no_open (s : list ascii) :
  includes openTag s = false → parseFrom 0 s = Some (map Text s).
Proof.
  induction s as [|c rest IH]; [reflexivity|].
  cbn [includes]. intros [Hhere Hrest]%orb_false_elim.
  rewrite parseFrom_cons, Hhere, (IH Hrest). reflexivity.
Qed.

Lemma fill_text (s : list ascii) : concat (map (fill tokens) (map Text s)) = s.
Proof. induction s as [|c s IH]; [reflexivity|]. cbn. by rewrite IH. Qed.

(** A value without the opening brace cannot start or complete a
    delimiter. *)
Lemma includes_plain_app (v t : list ascii) :
  forallb (λ c, negb (bool_decide (c = "{"%char))) v = true →
  includes openTag (v ++ t) = includes openTag t
  ∧ (v ≠ [] → braceFirst (v ++ t) = false).
Proof.
  induction v as [|a v IH]; [done|].
  cbn [forallb]. intros [Ha Hv]%andb_prop. apply negb_true_iff, bool_decide_eq_false in Ha.
  assert (Hfirst : bool_decide ("{"%char = a) = false) by (apply bool_decide_eq_false; congruence).
  split.
  - cbn [app includes]. rewrite startsWith_openTag, Hfirst. cbn [andb orb]. by apply IH.
  - intros _. cbn [app braceFirst]. exact Hfirst.
Qed.

(** The text a parsed text fills to, when the values of its placeholders
    are free of the opening brace, holds no opening delimiter; and it starts
    with a brace only if the text parsed does. *)
Lemma filled_no_open (n : nat) :
  ∀ (s : list ascii) segs, (List.length s ≤ n)%nat →
    parseFrom 0 s = Some segs →
    (∀ name, Hole name ∈ segs → plainValue tokens name = true) →
    includes openTag (concat (map (fill tokens) segs)) = false
    ∧ (braceFirst (concat (map (fill tokens) segs)) = true → braceFirst s = true).
Proof.
  induction n as [|n IH]; intros [|c rest] segs Hlen Hparse Hplain;
    try (injection Hparse as <-; by split); [cbn in Hlen; lia|].
  rewrite parseFrom_cons in Hparse. cbn [length] in Hlen.
  destruct (startsWith openTag (c :: rest)) eqn:Hopen.
  - destruct (untilClose _) as [name|]; [|discriminate].
    destruct (validName name); [|discriminate].
    rewrite parseFrom_drop in Hparse.
    destruct (parseFrom 0 (drop _ rest)) as [segs'|] eqn:Hrest; [|discriminate].
    injection Hparse as <-.
    destruct (IH (drop (List.length name + 3) rest) segs'
                ltac:(rewrite length_drop; lia) Hrest) as [Hnone Hbrace].
    { intros name' Hin. apply Hplain. by right. }
    assert (Hvalue : plainValue tokens (str name) = true) by (apply Hplain; left).
    cbn [map concat fill].
    destruct (includes_plain_app (chars (tokenValue tokens (str name)))
                (concat (map (fill tokens) segs')) Hvalue) as [Hinc Hfirst].
    split; [by rewrite Hinc|]. intros _.
    rewrite startsWith_openTag in Hopen. apply andb_prop in Hopen as [Hc _].
    exact Hc.
  - destruct (parseFrom 0 rest) as [segs'|] eqn:Hrest; [|discriminate].
    injection Hparse as <-.
    destruct (IH rest segs' ltac:(lia) Hrest) as [Hnone Hbrace].
    { intros name' Hin. apply Hplain. by right. }
    cbn [map concat fill app]. split.
    + cbn [includes]. rewrite Hnone, orb_false_r, startsWith_openTag.
      rewrite startsWith_openTag in Hopen.
      destruct (bool_decide ("{"%char = c)); [|reflexivity]. cbn [andb] in Hopen |- *.
      destruct (braceFirst (concat _)) eqn:Hout; [|reflexivity].
      by rewrite (Hbrace eq_refl) in Hopen.
    + cbn [braceFirst]. done.
Qed.

Lemma holes_plain (s : string) (segs : list Segment) :
  parseFrom 0 (chars s) = Some segs →
  forallb (plainValue tokens) (holes s) = true →
  ∀ name, Hole name ∈ segs → plainValue tokens name = true.
Proof.
  unfold holes. intros -> Hall name Hin.
  rewrite forallb_forall in Hall. apply Hall, list_elem_of_In, list_elem_of_omap.
  by exists (Hole name).
Qed.

(** A rendered text whose placeholders had values free of the opening brace
    renders to itself. *)
Lemma renderString_fixed (s s' : string) :
  renderString tokens s = Some s' →
  forallb (plainValue tokens) (holes s) = true →
  renderString tokens s' = Some s'.
Proof.
  unfold renderString. intros Hrender Hplain.
  destruct (parseFrom 0 (chars s)) as [segs|] eqn:Hparse; [|discriminate].
  injection Hrender as <-.
  destruct (filled_no_open _ _ segs (le_n _) Hparse (holes_plain _ _ Hparse Hplain))
    as [Hnone _].
  unfold chars, str in *. rewrite list_ascii_of_string_of_list_ascii.
  rewrite (parseFrom_no_open _ Hnone). cbn [fmap option_fmap option_map].
  by rewrite fill_text.
Qed.

Lemma renderPath_fixed (p p' : list string) :
  renderPath tokens p = Some p' →
  forallb (plainValue tokens) (flat_map holes p) = true →
  renderPath tokens p' = Some p'.
Proof.
  revert p'; induction p as [|seg p IH]; intros p' Hrender Hplain.
  - by injection Hrender as <-.
  - cbn [renderPath] in Hrender. cbn [flat_map] in Hplain.
    rewrite forallb_app in Hplain. apply andb_prop in Hplain as [Hseg Hp].
    destruct (renderString tokens seg) as [seg'|] eqn:Hs; [|discriminate].
    destruct (renderPath tokens p) as [rest'|]; [|discriminate].
    injection Hrender as <-. cbn [renderPath].
    by rewrite (renderString_fixed _ _ Hs Hseg), (IH _ eq_refl Hp).
Qed.

Lemma substituteTree_fixed (tree tree' : Tree) :
  substituteTree tokens tree = Some tree' →
  forallb (plainValue tokens) (treeHoles tree) = true →
  substituteTree tokens tree' = Some tree'.
Proof.
  revert tree'; induction tree as [|[p content] tree IH]; intros tree' Hrender Hplain.
  - by injection Hrender as <-.
  - cbn [substituteTree] in Hrender. unfold treeHoles in Hplain. cbn [flat_map fst snd] in Hplain.
    rewrite !forallb_app in Hplain.
    apply andb_prop in Hplain as [[Hp Hc]%andb_prop Htree].
    unfold renderFile in Hrender at 1. cbn [fst snd] in Hrender.
    destruct (renderPath tokens p) as [p1|] eqn:Hp1; [|discriminate].
    destruct (renderString tokens content) as [c1|] eqn:Hc1; [|discriminate].
    destruct (substituteTree tokens tree) as [rest'|]; [|discriminate].
    injection Hrender as <-. cbn [substituteTree]. unfold renderFile at 1. cbn [fst snd].
    by rewrite (renderPath_fixed _ _ Hp1 Hp), (renderString_fixed _ _ Hc1 Hc),
      (IH _ eq_refl Htree).
Qed.

End Substitution.

(** ** The characters of the case transformations *)

Lemma ascii_all (P : ascii → bool) :
  forallb (λ n, P (ascii_of_nat n)) (seq 0 256) = true → ∀ c, P c = true.
Proof.
  rewrite forallb_forall. intros H c. rewrite <- (ascii_nat_embedding c).
  apply H, in_seq. pose proof (nat_ascii_bounded c). lia.
Qed.

Lemma toLowerChar_case (c : ascii) :
  isCaseChar c = true → isCaseChar (toLowerChar c) = true.
Proof.
  intros H.
  assert (forallb (λ n, (λ c, implb (isCaseChar c) (isCaseChar (toLowerChar c)))
                          (ascii_of_nat n)) (seq 0 256) = true) as Hall
    by (vm_compute; reflexivity).
  pose proof (ascii_all _ Hall c) as Hc.
  cbn beta in Hc. by rewrite H in Hc.
Qed.

Lemma toUpperChar_case (c : ascii) :
  isCaseChar c = true → isCaseChar (toUpperChar c) = true.
Proof.
  intros H.
  assert (forallb (λ n, (λ c, implb (isCaseChar c) (isCaseChar (toUpperChar c)))
                          (ascii_of_nat n)) (seq 0 256) = true) as Hall
    by (vm_compute; reflexivity).
  pose proof (ascii_all _ Hall c) as Hc.
  cbn beta in Hc. by rewrite H in Hc.
Qed.

Lemma caseChar_not_brace (c : ascii) :
  isCaseChar c = true → negb (bool_decide (c = "{"%char)) = true.
Proof.
  intros H.
  assert (forallb (λ n, (λ c, implb (isCaseChar c) (negb (bool_decide (c = "{"%char))))
                          (ascii_of_nat n)) (seq 0 256) = true) as Hall
    by (vm_compute; reflexivity).
  pose proof (ascii_all _ Hall c) as Hc.
  cbn beta in Hc. by rewrite H in Hc.
Qed.

Lemma chars_str (l : list ascii) : chars (str l) = l.
Proof. apply list_ascii_of_string_of_list_ascii. Qed.

Lemma forallb_map_case (f : ascii → ascii) (l : list ascii) :
  (∀ c, isCaseChar c = true → isCaseChar (f c) = true) →
  forallb isCaseChar l = true → forallb isCaseChar (map f l) = true.
Proof.
  intros Hf. induction l as [|c l IH]; [done|].
  cbn [forallb map]. intros [Hc Hl]%andb_prop. by rewrite (Hf _ Hc), IH.
Qed.

Lemma replaceNonWord_case (replacement : list ascii) (atStart inRun : bool)
    (s : list ascii) :
  forallb isCaseChar replacement = true →
  forallb isCaseChar (replaceNonWord replacement atStart inRun s) = true.
Proof.
  intros Hrepl. revert atStart inRun; induction s as [|c s IH]; intros atStart inRun; [done|].
  cbn [replaceNonWord]. destruct (isWord c) eqn:Hword; [|apply IH].
  rewrite forallb_app. cbn [forallb]. unfold isCaseChar at 2. rewrite Hword, IH.
  cbn [orb andb]. rewrite andb_true_r. by destruct (inRun && negb atStart).
Qed.

Lemma noCaseWith_case (replacement value : string) :
  forallb isCaseChar (chars replacement) = true →
  forallb isCaseChar (chars (noCaseWith replacement value)) = true.
Proof.
  intros Hrepl. unfold noCaseWith, toLowerCase. rewrite !chars_str.
  apply forallb_map_case; [apply toLowerChar_case|]. by apply replaceNonWord_case.
Qed.

Lemma underscoreBeforeDigit_case (s : list ascii) :
  forallb isCaseChar s = true → forallb isCaseChar (underscoreBeforeDigit s) = true.
Proof.
  induction s as [|c s IH]; [done|].
  cbn [forallb underscoreBeforeDigit]. intros [Hc Hs]%andb_prop. rewrite (IH Hs), andb_true_r.
  by destruct (_ && _).
Qed.

Lemma upperAfter_case (sep : ascii) (keep : bool) (n : nat) :
  ∀ s : list ascii, (List.length s ≤ n)%nat →
    forallb isCaseChar s = true → forallb isCaseChar (upperAfter sep keep s) = true.
Proof.
  induction n as [|n IH]; intros [|c [|d rest]] Hlen Hs; try done;
    [cbn in Hlen; lia|].
  cbn [List.length] in Hlen. cbn [forallb] in Hs.
  apply andb_prop in Hs as [Hc [Hd Hrest]%andb_prop].
  cbn [upperAfter]. destruct (bool_decide (c = sep)).
  - rewrite forallb_app. cbn [forallb].
    rewrite (toUpperChar_case _ Hd), (IH rest ltac:(lia) Hrest).
    destruct keep; cbn [forallb]; by rewrite ?Hc.
  - cbn [forallb]. rewrite Hc. apply (IH (d :: rest)); [cbn; lia|].
    cbn [forallb]. by rewrite Hd, Hrest.
Qed.

Lemma upperCaseFirst_case (s : string) :
  forallb isCaseChar (chars s) = true →
  forallb isCaseChar (chars (upperCaseFirst s)) = true.
Proof.
  unfold upperCaseFirst. destruct (chars s) as [|c rest]; [done|].
  rewrite chars_str. cbn [forallb]. intros [Hc Hrest]%andb_prop.
  by rewrite (toUpperChar_case _ Hc), Hrest.
Qed.

Lemma camelCase_case (value : string) : forallb isCaseChar (chars (camelCase value)) = true.
Proof.
  unfold camelCase. rewrite chars_str.
  apply (upperAfter_case _ _ _ _ (le_n _)), underscoreBeforeDigit_case.
  by apply noCaseWith_case.
Qed.

Lemma toLowerCase_case (s : string) :
  forallb isCaseChar (chars s) = true → forallb isCaseChar (chars (toLowerCase s)) = true.
Proof.
  intros H. unfold toLowerCase. rewrite chars_str.
  by apply forallb_map_case; [apply toLowerChar_case|].
Qed.

Lemma toUpperCase_case (s : string) :
  forallb isCaseChar (chars s) = true → forallb isCaseChar (chars (toUpperCase s)) = true.
Proof.
  intros H. unfold toUpperCase. rewrite chars_str.
  by apply forallb_map_case; [apply toUpperChar_case|].
Qed.

Lemma capitalised_case (sep : ascii) (s : string) :
  forallb isCaseChar (chars s) = true →
  forallb isCaseChar (chars (upperCaseFirst (str (upperAfter sep true (chars s))))) = true.
Proof.
  intros H. apply upperCaseFirst_case. rewrite chars_str.
  by apply (upperAfter_case _ _ _ _ (le_n _)).
Qed.

(** Every name token holds letters, digits and separators only. *)
Lemma templateTokens_case (name key value : string) :
  lookupToken key (templateTokens name) = Some value →
  key ≠ "openTag" → key ≠ "closeTag" →
  forallb isCaseChar (chars value) = true.
Proof.
  intros Hlookup Hopen Hclose. unfold templateTokens in Hlookup.
  cbn [lookupToken] in Hlookup.
  repeat (case_bool_decide; [simplify_eq; try done|]); [..|discriminate].
  - apply upperCaseFirst_case, camelCase_case.
  - apply toLowerCase_case, upperCaseFirst_case, camelCase_case.
  - by apply noCaseWith_case.
  - apply camelCase_case.
  - by apply capitalised_case, noCaseWith_case.
  - by apply noCaseWith_case.
  - by apply noCaseWith_case.
  - by apply toUpperCase_case, noCaseWith_case.
  - by apply capitalised_case, noCaseWith_case.
  - by apply noCaseWith_case.
Qed.

(** No token of the remote template but [openTag] has an opening brace in
    its value; a name that is no token renders as the empty string. *)
Lemma templateTokens_plain (name key : string) :
  key ≠ "openTag" → plainValue (templateTokens name) key = true.
Proof.
  intros Hopen. unfold plainValue, tokenValue.
  destruct (lookupToken key (templateTokens name)) as [value|] eqn:Hlookup; [|done].
  cbn [default]. unfold id. destruct (decide (key = "closeTag")) as [->|Hclose].
  - vm_compute in Hlookup. by injection Hlookup as <-.
  - pose proof (templateTokens_case _ _ _ Hlookup Hopen Hclose) as Hcase.
    revert Hcase. generalize (chars value) as l.
    induction l as [|c l IH]; [done|].
    cbn [forallb]. intros [Hc Hl]%andb_prop.
    by rewrite (caseChar_not_brace _ Hc), IH.
Qed.

(** C8, as stated, fails: the token set names the braces, so a template
    can spell a placeholder with them.  On the tree whose one file reads
    [{{openTag}}nameKebabCase{{closeTag}}] the first pass with the tokens
    of [my-cool-app] leaves the text [{{nameKebabCase}}] and the second
    pass turns it into [my-cool-app]. *)
Lemma substituteTree_not_idempotent :
  let tokens := templateTokens "my-cool-app" in
  substituteTree tokens bracesTree = Some [(["README.md"], "{{nameKebabCase}}")]
  ∧ substituteTree tokens [(["README.md"], "{{nameKebabCase}}")]
    = Some [(["README.md"], "my-cool-app")]
  ∧ (substituteTree tokens bracesTree ≫= substituteTree tokens)
    ≠ substituteTree tokens bracesTree.
Proof. vm_compute. repeat split; discriminate. Qed.

(** C8, amended: a second pass of the substitution changes nothing when
    no placeholder of the tree has a value with an opening brace in it:
    the pass that succeeded on [tree] succeeds on its result and returns
    it.  With the token set of the remote template that is every template
    which does not use [{{openTag}}]: the other tokens, [closeTag] among
    them, and the names that are no tokens have values without an opening
    brace, whatever the project name. *)
Theorem substituteTree_idempotent :
  (∀ (tokens : TokenSet) (tree tree' : Tree),
     substituteTree tokens tree = Some tree' →
     forallb (plainValue tokens) (treeHoles tree) = true →
     substituteTree tokens tree' = Some tree')
  ∧ (∀ name key : string,
       key ≠ "openTag" → plainValue (templateTokens name) key = true).
Proof.
  split.
  - intros tokens tree tree'. apply substituteTree_fixed.
  - apply templateTokens_plain.
Qed.

Lemma substituteTree_idempotent_witness :
  let tokens := templateTokens "my-cool-app" in
  let tree := [(["{{nameKebabCase}}"; "package.json"], "{ name: {{nameKebabCase}} }");
               (["{{nameKebabCase}}"; "README.md"], "# {{nameTitleCase}}{{closeTag}}")] in
  let tree' := [(["my-cool-app"; "package.json"], "{ name: my-cool-app }");
                (["my-cool-app"; "README.md"], "# My Cool App}}")] in
  substituteTree tokens tree = Some tree'
  ∧ substituteTree tokens tree' = Some tree'
  ∧ plainValue tokens "nameTitleCase" = true.
Proof.
  intros tokens tree tree'.
  split; [reflexivity|]. split.
  - apply (proj1 substituteTree_idempotent tokens tree tree'); reflexivity.
  - apply (proj2 substituteTree_idempotent "my-cool-app" "nameTitleCase"). discriminate.
Defined.

(** ** The probe of [npm] *)

Section Lines.

Lemma linesOf_cons (s : list ascii) : ∃ l ls, linesOf s = l :: ls ∧ l = restOfLine s.
Proof.
  induction s as [|c rest (l & ls & IH & Hl)]; [by eexists _, _|].
  cbn [linesOf restOfLine]. destruct (isLineTerminator c); [by eexists _, _|].
  rewrite IH. eexists _, _; split; [reflexivity|]. by rewrite Hl.
Qed.

Lemma linesOf_tail (c : ascii) (rest : list ascii) :
  tail (linesOf (c :: rest))
  = if isLineTerminator c then linesOf rest else tail (linesOf rest).
Proof.
  cbn [linesOf]. destruct (isLineTerminator c); [reflexivity|].
  destruct (linesOf_cons rest) as (l & ls & -> & _). reflexivity.
Qed.

(** A prefix without line terminators is seen on the first line alone. *)
Lemma startsWith_restOfLine (p s : list ascii) :
  forallb (λ c, negb (isLineTerminator c)) p = true →
  startsWith p (restOfLine s) = startsWith p s.
Proof.
  revert s; induction p as [|a p IH]; intros s Hp; [by destruct s|].
  cbn [forallb] in Hp. apply andb_prop in Hp as [Ha Hp].
  destruct s as [|b s]; [reflexivity|].
  cbn [restOfLine]. destruct (isLineTerminator b) eqn:Hb.
  - cbn [startsWith]. case_bool_decide; [subst; by rewrite Hb in Ha|reflexivity].
  - cbn [startsWith]. by rewrite IH.
Qed.

Lemma restOfLine_drop (p s : list ascii) :
  forallb (λ c, negb (isLineTerminator c)) p = true →
  startsWith p s = true →
  restOfLine (drop (length p) s) = drop (length p) (restOfLine s).
Proof.
  revert s; induction p as [|a p IH]; intros s Hp Hs; [reflexivity|].
  cbn [forallb] in Hp. apply andb_prop in Hp as [Ha Hp].
  destruct s as [|b s]; [discriminate|].
  cbn [startsWith] in Hs. apply andb_prop in Hs as [Hab Hs].
  apply bool_decide_eq_true in Hab as <-.
  cbn [restOfLine]. apply negb_true_iff in Ha. rewrite Ha.
  cbn [length drop]. by apply IH.
Qed.

Lemma cwdPrefix_one_line : forallb (λ c, negb (isLineTerminator c)) cwdPrefix = true.
Proof. reflexivity. Qed.

(** The scan of the pattern finds the first line that carries the prefix:
    from the middle of a line it looks at the lines that follow, from a
    line start at the line itself as well. *)
Lemma matchCwd_lines (s : list ascii) :
  matchCwd false s = firstCwd (tail (linesOf s))
  ∧ matchCwd true s = firstCwd (linesOf s).
Proof.
  induction s as [|c rest [IHmid IHstart]]; [split; reflexivity|].
  assert (Hmid : matchCwd false (c :: rest) = firstCwd (tail (linesOf (c :: rest)))).
  { rewrite linesOf_tail. cbn [matchCwd andb].
    destruct (isLineTerminator c); assumption. }
  split; [exact Hmid|].
  destruct (linesOf_cons (c :: rest)) as (l & ls & Hlines & Hl).
  rewrite Hlines in Hmid |- *. cbn [tail] in Hmid.
  unfold firstCwd in *. cbn [List.filter].
  rewrite Hl, (startsWith_restOfLine _ _ cwdPrefix_one_line).
  cbn [matchCwd andb]. cbn [matchCwd andb] in Hmid.
  destruct (startsWith cwdPrefix (c :: rest)) eqn:Hp; [|exact Hmid].
  cbn [head fmap option_fmap option_map]. f_equal.
  by apply restOfLine_drop.
Qed.

End Lines.

(** On a string output the answer is read off the first working-directory
    line. *)
Lemma canUseNpm_string (env : Env) (root output : string) :
  spawnSync_npm_config_list env = SpawnJoined (JsString output) →
  canUseNpm env root
  = match cwdLines output with
    | [] => true
    | line :: _ => bool_decide (cwdOfLine line = root)
    end.
Proof.
  intros Hspawn. unfold canUseNpm, cwdLines, cwdOfLine. rewrite Hspawn.
  rewrite (proj2 (matchCwd_lines (chars output))). unfold firstCwd.
  by destruct (List.filter _ _).
Qed.

(** C10: [canUseNpm] fails open.  It answers true when the probe throws, when
    the joined output is not a string and when the output has no line that
    starts with the working-directory prefix; it answers false exactly when
    there is such a line and the path the first one names differs from the
    given root. *)
Theorem canUseNpm_fails_open (env : Env) (root : string) :
  (spawnSync_npm_config_list env = SpawnThrows → canUseNpm env root = true)
  ∧ (spawnSync_npm_config_list env = SpawnJoined JsOther → canUseNpm env root = true)
  ∧ (∀ output, spawnSync_npm_config_list env = SpawnJoined (JsString output) →
       cwdLines output = [] → canUseNpm env root = true)
  ∧ (canUseNpm env root = false ↔
       ∃ output line others,
         spawnSync_npm_config_list env = SpawnJoined (JsString output)
         ∧ cwdLines output = line :: others
         ∧ cwdOfLine line ≠ root).
Proof.
  destruct (spawnSync_npm_config_list env) as [|[output|]] eqn:Hspawn.
  - unfold canUseNpm; rewrite Hspawn.
    repeat split; try done. intros (? & ? & ? & ? & _); done.
  - rewrite (canUseNpm_string _ _ _ Hspawn).
    repeat split; try done.
    + intros ? [= <-] ->. reflexivity.
    + destruct (cwdLines output) as [|line others] eqn:Hlines; [done|].
      intros Hne. apply bool_decide_eq_false in Hne. by exists output, line, others.
    + intros (? & line & others & [= <-] & -> & Hne).
      by apply bool_decide_eq_false.
  - unfold canUseNpm; rewrite Hspawn.
    repeat split; try done. intros (? & ? & ? & ? & _); done.
Qed.

Lemma canUseNpm_fails_open_witness :
  let output := "; cli configs" +:+ nl +:+ "; cwd = /home/u" +:+ nl +:+ "; HOME = /root" in
  canUseNpm (npmEnv SpawnThrows) "/home/u/my-cool-app" = true
  ∧ canUseNpm (npmEnv (SpawnJoined JsOther)) "/home/u/my-cool-app" = true
  ∧ canUseNpm (npmEnv (SpawnJoined (JsString "; cli configs"))) "/home/u/my-cool-app" = true
  ∧ canUseNpm (npmEnv (SpawnJoined (JsString output))) "/home/u/my-cool-app" = false
  ∧ canUseNpm (npmEnv (SpawnJoined (JsString output))) "/home/u" = true.
Proof.
  intros output. split; [|split; [|split; [|split]]].
  - exact (proj1 (canUseNpm_fails_open (npmEnv SpawnThrows) _) eq_refl).
  - exact (proj1 (proj2 (canUseNpm_fails_open (npmEnv (SpawnJoined JsOther)) _)) eq_refl).
  - refine (proj1 (proj2 (proj2 (canUseNpm_fails_open
              (npmEnv (SpawnJoined (JsString "; cli configs"))) _))) _ eq_refl _).
    vm_compute; reflexivity.
  - apply (proj2 (proj2 (proj2 (canUseNpm_fails_open
              (npmEnv (SpawnJoined (JsString output))) _)))).
    exists output, (chars "; cwd = /home/u"), [].
    split; [reflexivity|]. split; [vm_compute; reflexivity|].
    vm_compute; discriminate.
  - vm_compute; reflexivity.
Defined.

(** ** Effects: the monad *)

Section Keeps.
Context (R : relation (gmap (list string) Node)) `{!PreOrder R}.

Lemma keeps_ret {A : Type} (a : A) : keeps R (ret a).
Proof. intros w r w' [= <- <-]. reflexivity. Qed.

Lemma keeps_throw {A : Type} (e : string) : keeps R (@throw A e).
Proof. intros w r w' [= <- <-]. reflexivity. Qed.

Lemma keeps_emit (e : LogEntry) : keeps R (emit e).
Proof. intros w r w' [= <- <-]. reflexivity. Qed.

Lemma keeps_bind {A B : Type} (m : M A) (k : A → M B) :
  keeps R m → (∀ a, keeps R (k a)) → keeps R (bind m k).
Proof.
  intros Hm Hk w r w'. unfold bind.
  destruct (m w) as [[a|e] w1] eqn:Hmw.
  - intros Hkw. etrans; [exact (Hm _ _ _ Hmw) | exact (Hk _ _ _ _ Hkw)].
  - intros [= <- <-]. exact (Hm _ _ _ Hmw).
Qed.

Lemma keeps_tryCatch {A : Type} (body : M A) (handler : string → M A) :
  keeps R body → (∀ e, keeps R (handler e)) → keeps R (tryCatch body handler).
Proof.
  intros Hm Hk w r w'. unfold tryCatch.
  destruct (body w) as [[a|e] w1] eqn:Hmw.
  - intros [= <- <-]. exact (Hm _ _ _ Hmw).
  - intros Hkw. etrans; [exact (Hm _ _ _ Hmw) | exact (Hk _ _ _ _ Hkw)].
Qed.

Lemma keeps_when (b : bool) (m : M unit) : keeps R m → keeps R (when b m).
Proof. destruct b; [done | intros _; apply keeps_ret]. Qed.

Lemma keeps_if {A : Type} (b : bool) (m1 m2 : M A) :
  keeps R m1 → keeps R m2 → keeps R (if b then m1 else m2).
Proof. by destruct b. Qed.

End Keeps.

Lemma keeps_weaken {A : Type} (R R' : relation (gmap (list string) Node)) (m : M A) :
  (∀ f f', R f f' → R' f f') → keeps R m → keeps R' m.
Proof. intros HR Hm w r w' Hw. apply HR, (Hm _ _ _ Hw). Qed.

Lemma bind_returned {A B : Type} (m : M A) (k : A → M B) (w w' : World) (b : B) :
  bind m k w = (Returned b, w') →
  ∃ a w1, m w = (Returned a, w1) ∧ k a w1 = (Returned b, w').
Proof.
  unfold bind. destruct (m w) as [[a|e] w1]; [by eexists _, _ | discriminate].
Qed.

Create HintDb keeps.
#[local] Hint Resolve keeps_ret keeps_throw keeps_emit keeps_when keeps_if : keeps.

(** ** Changes of the file system *)

#[global] Instance onlyDirsAdded_preorder target : PreOrder (onlyDirsAdded target).
Proof.
  split.
  - intros f p. by left.
  - intros f1 f2 f3 H12 H23 p.
    destruct (H12 p) as [E12|(N1 & D2 & Hp)], (H23 p) as [E23|(N2 & D3 & _)].
    + left. congruence.
    + right. repeat split; [congruence | done | ].
      destruct (H23 p) as [?|(_ & _ & ?)]; [congruence | done].
    + right. repeat split; [done | congruence | done].
    + congruence.
Qed.

#[global] Instance writesWithin_preorder roots : PreOrder (writesWithin roots).
Proof.
  split.
  - intros f p. by left.
  - intros f1 f2 f3 H12 H23 p.
    destruct (H12 p) as [E12|[Hb|(N1 & D2 & Hp)]]; [|by right; left|].
    + destruct (H23 p) as [E23|[Hb|(N2 & D3 & Hp)]];
        [left; congruence | by right; left | ].
      right; right. repeat split; [congruence | done | done].
    + destruct (H23 p) as [E23|[Hb|(N2 & D3 & _)]];
        [ | by right; left | congruence].
      right; right. repeat split; [done | congruence | done].
Qed.

Lemma writesWithin_mono (roots roots' : list (list string)) f f' :
  roots ⊆ roots' → writesWithin roots f f' → writesWithin roots' f f'.
Proof.
  intros Hsub H p. destruct (H p) as [?|[(b & Hb & ?)|(? & ? & b & Hb & ?)]];
    [by left | right; left | right; right]; eauto 10.
Qed.

Lemma onlyDirsAdded_writesWithin (target : list string) f f' :
  onlyDirsAdded target f f' → writesWithin [target] f f'.
Proof.
  intros H p. destruct (H p) as [?|(? & ? & ?)]; [by left|].
  right; right. repeat split; [done..|]. exists target. split; [set_solver | done].
Qed.

(** ** Making directories *)

Lemma mkdirs_spec (rest done : list string) (f f' : gmap (list string) Node) :
  mkdirs done rest f = Some f' →
  f' !! (done ++ rest) = Some Dir ∧ onlyDirsAdded (done ++ rest) f f'.
Proof.
  revert done f; induction rest as [|seg rest IH]; intros done f Hmk.
  - cbn [mkdirs] in Hmk. rewrite app_nil_r.
    destruct (f !! done) as [[c|]|] eqn:Hdone; [done|..]; injection Hmk as <-.
    + split; [done | reflexivity].
    + split; [apply lookup_insert_eq|].
      intros p. destruct (decide (p = done)) as [->|Hne].
      * right. by rewrite lookup_insert_eq.
      * left. by rewrite lookup_insert_ne.
  - cbn [mkdirs] in Hmk.
    assert (Hstep : ∀ f1, mkdirs (done ++ [seg]) rest f1 = Some f' →
              onlyDirsAdded (done ++ seg :: rest) f f1 →
              f' !! (done ++ seg :: rest) = Some Dir
              ∧ onlyDirsAdded (done ++ seg :: rest) f f').
    { intros f1 Hmk1 H1. apply IH in Hmk1 as [Hdir H2].
      rewrite <- app_assoc in Hdir, H2. split; [exact Hdir | by etrans]. }
    destruct (f !! done) as [[c|]|] eqn:Hdone; [done|..].
    + apply (Hstep _ Hmk). reflexivity.
    + apply (Hstep _ Hmk). intros p. destruct (decide (p = done)) as [->|Hne].
      * right. rewrite lookup_insert_eq. repeat split; [done|]. by apply prefix_app_r.
      * left. by rewrite lookup_insert_ne.
Qed.

(** Nothing is made when every prefix from [done] on is a directory. *)
Lemma mkdirs_id (rest done : list string) (f : gmap (list string) Node) :
  (∀ q, done `prefix_of` q → q `prefix_of` done ++ rest → f !! q = Some Dir) →
  mkdirs done rest f = Some f.
Proof.
  revert done; induction rest as [|seg rest IH]; intros done Hdirs.
  - cbn [mkdirs]. rewrite (Hdirs done); [done | done | by apply prefix_app_r].
  - cbn [mkdirs]. rewrite (Hdirs done); [ | done | by apply prefix_app_r].
    apply IH. intros q Hq1 Hq2. apply Hdirs.
    + by eapply prefix_app_l.
    + by rewrite <- app_assoc in Hq2.
Qed.

(** The walk succeeds when no prefix from [done] on is a regular file. *)
Lemma mkdirs_succeeds (rest done : list string) (f : gmap (list string) Node) :
  (∀ q, done `prefix_of` q → q `prefix_of` done ++ rest → isFile (f !! q) = false) →
  is_Some (mkdirs done rest f).
Proof.
  revert done f; induction rest as [|seg rest IH]; intros done f Hfiles.
  - cbn [mkdirs]. specialize (Hfiles done (reflexivity _) (prefix_app_r _ _ _ (reflexivity _))).
    destruct (f !! done) as [[c|]|]; by eauto.
  - cbn [mkdirs].
    pose proof (Hfiles done (reflexivity _) (prefix_app_r _ _ _ (reflexivity _))) as Hd.
    assert (Hnext : ∀ f1, (∀ q, done ++ [seg] `prefix_of` q → f1 !! q = f !! q) →
              is_Some (mkdirs (done ++ [seg]) rest f1)).
    { intros f1 Hsame. apply IH. intros q Hq1 Hq2. rewrite (Hsame q Hq1).
      apply Hfiles; [by eapply prefix_app_l | by rewrite <- app_assoc in Hq2]. }
    destruct (f !! done) as [[c|]|] eqn:Hdone; [done|..]; apply Hnext.
    + done.
    + intros q Hq. apply lookup_insert_ne. intros ->. by apply prefix_snoc_not in Hq.
Qed.

Lemma wf_fs_ancestors (f : gmap (list string) Node) (p : list string) :
  wf_fs f → f !! p = Some Dir → ∀ q, q `prefix_of` p → f !! q = Some Dir.
Proof.
  intros Hwf Hp q Hq. destruct (decide (q = p)) as [->|Hne]; [done|].
  by apply (Hwf p q Dir).
Qed.

(** ** The root validator *)

Section RootValidator.
Context (env : Env).

(** What [validateProjectRoot] does, case by case. *)
Lemma validateProjectRoot_cases (root : string) (useYarn : bool) (w : World) :
  validateProjectRoot env root useYarn w =
  match fs w !! segments root with
  | Some (File _) => (Thrown ("Found a non-directory at " +:+ root +:+ "."), w)
  | _ =>
      match mkdirs [] (segments root) (fs w) with
      | None => (Thrown ("EEXIST: file already exists, mkdir '" +:+ root +:+ "'"), w)
      | Some f' =>
          if bool_decide (is_Some (f' !! segments (joinPath root "package.json")))
          then (Thrown ("A Node.js project already exists at " +:+ root +:+ "."), withFs f' w)
          else if useYarn then (Returned tt, withFs f' w)
          else if canUseNpm env root then (Returned tt, withFs f' w)
          else (Thrown ("Unable to start an NPM process in " +:+ root +:+ "."), withFs f' w)
      end
  end.
Proof.
  unfold validateProjectRoot, bind, existsSync, lstatSync_isDirectory, ensureDirSync, ret, throw.
  destruct (fs w !! segments root) as [[c|]|] eqn:Hroot.
  - rewrite bool_decide_true by eauto. rewrite Hroot. reflexivity.
  - rewrite bool_decide_true by eauto. rewrite Hroot.
    cbn -[mkdirs segments joinPath String.append canUseNpm].
    destruct (mkdirs _ _ _) as [f'|]; [|reflexivity].
    cbn -[mkdirs segments joinPath String.append canUseNpm].
    case_bool_decide; [reflexivity|]. destruct useYarn; [reflexivity|].
    by destruct (canUseNpm _ _).
  - rewrite bool_decide_false by (by intros [? ?]).
    cbn -[mkdirs segments joinPath String.append canUseNpm].
    destruct (mkdirs _ _ _) as [f'|]; [|reflexivity].
    cbn -[mkdirs segments joinPath String.append canUseNpm].
    case_bool_decide; [reflexivity|]. destruct useYarn; [reflexivity|].
    by destruct (canUseNpm _ _).
Qed.

(** Whatever its outcome, the validator changes the file system by
    nothing but missing directories on the way to the root. *)
Lemma validateProjectRoot_keeps (root : string) (useYarn : bool) :
  keeps (onlyDirsAdded (segments root)) (validateProjectRoot env root useYarn).
Proof.
  intros w r w'. rewrite validateProjectRoot_cases.
  destruct (fs w !! segments root) as [[c|]|];
    [by intros [= <- <-]| |];
    (destruct (mkdirs _ _ _) as [f'|] eqn:Hmk; [|by intros [= <- <-]];
     apply mkdirs_spec in Hmk as [_ Hmk];
     repeat (case_bool_decide || destruct useYarn || destruct (canUseNpm _ _));
     by intros [= <- <-]).
Qed.

End RootValidator.

Lemma elem_of_prefixes (p q : list string) : q `prefix_of` p → q ∈ prefixes p.
Proof.
  intros [k ->]. unfold prefixes. apply list_elem_of_fmap.
  exists (length q). split; [by rewrite take_app_length|].
  apply elem_of_seq. rewrite length_app. lia.
Qed.

Lemma wf_fsb_spec (f : gmap (list string) Node) : wf_fsb f = true → wf_fs f.
Proof.
  unfold wf_fsb. rewrite forallb_forall. intros Hall p q n Hp Hq Hne.
  specialize (Hall (p, n)). cbn beta iota in Hall.
  rewrite forallb_forall in Hall.
  assert (Hin : In (p, n) (map_to_list f)).
  { apply list_elem_of_In, elem_of_map_to_list, Hp. }
  specialize (Hall Hin q (proj1 (list_elem_of_In _ _) (elem_of_prefixes _ _ Hq))).
  apply orb_prop in Hall as [Heq|Hdir].
  - by apply bool_decide_eq_true in Heq.
  - by destruct (f !! q) as [[?|]|].
Qed.

Lemma prefixes_no_file (f : gmap (list string) Node) (p : list string) :
  forallb (λ q, negb (isFile (f !! q))) (prefixes p) = true →
  ∀ q, q `prefix_of` p → isFile (f !! q) = false.
Proof.
  rewrite forallb_forall. intros Hall q Hq.
  apply negb_true_iff, Hall, list_elem_of_In, elem_of_prefixes, Hq.
Qed.

(** ** The name validator *)

Section NameValidator.
Context (env : Env).

Lemma validatePackageName_valid (name : string) (w : World) :
  validForNewPackages (validateNpmPackageName name) = true →
  validatePackageName name w = (Returned tt, w).
Proof. intros H. unfold validatePackageName. by rewrite H. Qed.

Lemma validatePackageName_invalid (name : string) (w : World) :
  validForNewPackages (validateNpmPackageName name) = false →
  ∃ l, validatePackageName name w
       = (Thrown ("Unable to create project with name " +:+ name +:+ "."),
          withLog (log w ++ l) w).
Proof.
  intros H. unfold validatePackageName. rewrite H. cbn [negb].
  unfold bind, when, throw, ret, Log_warning, emit. destruct w as [f l0].
  destruct (negb (bool_decide _)).
  - eexists [_; _]. unfold withLog; cbn. rewrite <- app_assoc. reflexivity.
  - exists []. unfold withLog; cbn. rewrite app_nil_r. reflexivity.
Qed.

Lemma validatePackageName_keeps (name : string) : keeps eq (validatePackageName name).
Proof.
  intros w r w'. destruct (validForNewPackages (validateNpmPackageName name)) eqn:Hv.
  - rewrite validatePackageName_valid by done. by intros [= <- <-].
  - destruct (validatePackageName_invalid name w Hv) as [l ->]. by intros [= <- <-].
Qed.

End NameValidator.

(** C2: for every name that [validate-npm-package-name] does not accept for
    new packages, [createProject] throws and the file system is left as it
    was: [validatePackageName] throws before any file-system operation. *)
Theorem createProject_invalid_name (env : Env) (name : string) (bare : bool)
    (cwd : string) (w : World) :
  validForNewPackages (validateNpmPackageName name) = false →
  ∃ w', createProject env name bare cwd w
        = (Thrown ("Unable to create project with name " +:+ name +:+ "."), w')
        ∧ fs w' = fs w.
Proof.
  intros Hinvalid. destruct (validatePackageName_invalid name w Hinvalid) as [l Hthrow].
  eexists. unfold createProject, bind. rewrite Hthrow. split; reflexivity.
Qed.

Lemma createProject_invalid_name_witness :
  validForNewPackages (validateNpmPackageName "http") = false
  ∧ ∃ w', createProject (npmEnv SpawnThrows) "http" true "/home/u" homeWorld
          = (Thrown "Unable to create project with name http.", w')
          ∧ fs w' = fs homeWorld.
Proof.
  split; [vm_compute; reflexivity|].
  apply (createProject_invalid_name (npmEnv SpawnThrows) "http" true "/home/u" homeWorld).
  vm_compute; reflexivity.
Defined.

(** C6: [validateProjectRoot] throws when a regular file occupies the path,
    leaving the world as it is; when nothing is at the path (and no ancestor
    is a regular file, so that the directory can be made) the path is a
    directory afterwards and nothing else but missing ancestors was made;
    and when the directory is there with a [package.json] inside, it throws
    the conflict error and leaves the world as it is. *)
Theorem validateProjectRoot_spec (env : Env) (root : string) (useYarn : bool) (w : World) :
  (∀ content, fs w !! segments root = Some (File content) →
     validateProjectRoot env root useYarn w
     = (Thrown ("Found a non-directory at " +:+ root +:+ "."), w))
  ∧ (fs w !! segments root = None →
     (∀ q, q `prefix_of` segments root → isFile (fs w !! q) = false) →
     ∀ r w', validateProjectRoot env root useYarn w = (r, w') →
       fs w' !! segments root = Some Dir
       ∧ onlyDirsAdded (segments root) (fs w) (fs w'))
  ∧ (wf_fs (fs w) → fs w !! segments root = Some Dir →
     is_Some (fs w !! segments (joinPath root "package.json")) →
     validateProjectRoot env root useYarn w
     = (Thrown ("A Node.js project already exists at " +:+ root +:+ "."), w)).
Proof.
  split; [|split].
  - intros content Hroot. rewrite validateProjectRoot_cases, Hroot. reflexivity.
  - intros Hroot Hfiles r w'. rewrite validateProjectRoot_cases, Hroot.
    destruct (mkdirs_succeeds (segments root) [] (fs w)) as [f' Hmk].
    { intros q _ Hq. by apply Hfiles. }
    rewrite Hmk. apply mkdirs_spec in Hmk as [Hdir Hframe].
    repeat (case_bool_decide || destruct useYarn || destruct (canUseNpm _ _));
      by intros [= <- <-].
  - intros Hwf Hroot Hpkg. rewrite validateProjectRoot_cases, Hroot.
    rewrite mkdirs_id by (intros q _ Hq; by apply (wf_fs_ancestors _ _ Hwf Hroot)).
    rewrite bool_decide_true by done. by destruct w.
Qed.

Lemma validateProjectRoot_spec_witness :
  validateProjectRoot (npmEnv SpawnThrows) "/home/u/app" false fileWorld
  = (Thrown "Found a non-directory at /home/u/app.", fileWorld)
  ∧ (∀ r w', validateProjectRoot (npmEnv SpawnThrows) "/home/u/app" false homeWorld = (r, w') →
       fs w' !! ["home"; "u"; "app"] = Some Dir)
  ∧ validateProjectRoot (npmEnv SpawnThrows) "/home/u/app" false projectWorld
    = (Thrown "A Node.js project already exists at /home/u/app.", projectWorld).
Proof.
  split; [|split].
  - apply (proj1 (validateProjectRoot_spec (npmEnv SpawnThrows) "/home/u/app" false fileWorld)
             "notes").
    vm_compute; reflexivity.
  - intros r w' Hrun.
    refine (proj1 (proj1 (proj2 (validateProjectRoot_spec (npmEnv SpawnThrows)
                                   "/home/u/app" false homeWorld)) _ _ r w' Hrun)).
    + vm_compute; reflexivity.
    + apply prefixes_no_file. vm_compute; reflexivity.
  - apply (proj2 (proj2 (validateProjectRoot_spec (npmEnv SpawnThrows)
                           "/home/u/app" false projectWorld))).
    + apply wf_fsb_spec. vm_compute; reflexivity.
    + vm_compute; reflexivity.
    + vm_compute. eexists; reflexivity.
Defined.

(** C1, as stated, fails: with yarn not selected and [npm] reporting another
    working directory, [createProject] throws the NPM error after the root
    directory has been made; the file system is not the initial one. *)
Lemma createProject_npm_error_after_mkdir :
  let env := npmEnv (npmOutput "/somewhere/else") in
  shouldUseYarn env = false
  ∧ canUseNpm env (rootOf "/home/u" "my-cool-app") = false
  ∧ ∃ w', createProject env "my-cool-app" false "/home/u" homeWorld
          = (Thrown "Unable to start an NPM process in /home/u/my-cool-app.", w')
          ∧ fs homeWorld !! ["home"; "u"; "my-cool-app"] = None
          ∧ fs w' !! ["home"; "u"; "my-cool-app"] = Some Dir
          ∧ fs w' ≠ fs homeWorld.
Proof.
  intros env. split; [reflexivity|]. split; [vm_compute; reflexivity|].
  eexists. split; [vm_compute; reflexivity|].
  split; [reflexivity|]. split; [vm_compute; reflexivity|].
  intros Heq. apply (f_equal (λ f, f !! ["home"; "u"; "my-cool-app"])) in Heq.
  vm_compute in Heq. discriminate Heq.
Qed.

(** C1, amended: when yarn is not selected and [canUseNpm] answers false for
    the root, [createProject] throws, and at that moment no regular file has
    been written or changed: the file system differs from the initial one
    by, at most, the root directory and missing ancestors of it, newly made
    as directories. *)
Theorem createProject_untrusted_npm_fails (env : Env) (name : string) (bare : bool)
    (cwd : string) (w : World) :
  shouldUseYarn env = false →
  canUseNpm env (rootOf cwd name) = false →
  ∃ e w', createProject env name bare cwd w = (Thrown e, w')
          ∧ onlyDirsAdded (segments (rootOf cwd name)) (fs w) (fs w')
          ∧ (∀ p content, fs w' !! p = Some (File content) ↔ fs w !! p = Some (File content)).
Proof.
  intros Hyarn Hnpm.
  assert (Hfiles : ∀ f', onlyDirsAdded (segments (rootOf cwd name)) (fs w) f' →
            ∀ p content, f' !! p = Some (File content) ↔ fs w !! p = Some (File content)).
  { intros f' Hframe p content. destruct (Hframe p) as [->|(Hnone & Hdir & _)]; [done|].
    rewrite Hnone, Hdir. split; discriminate. }
  unfold createProject, bind.
  destruct (validForNewPackages (validateNpmPackageName name)) eqn:Hvalid.
  - rewrite validatePackageName_valid by done.
    pose proof (validateProjectRoot_keeps env (rootOf cwd name) (shouldUseYarn env) w) as Hkeeps.
    rewrite validateProjectRoot_cases, Hyarn, Hnpm in Hkeeps |- *.
    destruct (fs w !! segments (rootOf cwd name)) as [[c|]|];
      [by eexists _, _; split; [|split; [|apply Hfiles]] | |];
      (destruct (mkdirs _ _ _) as [f'|];
       [case_bool_decide|];
       eexists _, _; (split; [reflexivity|]);
       (split; [|apply Hfiles]); eapply Hkeeps; reflexivity).
  - destruct (validatePackageName_invalid name w Hvalid) as [l ->].
    eexists _, _. split; [reflexivity|]. split; [reflexivity|]. by apply Hfiles.
Qed.

Lemma createProject_untrusted_npm_fails_witness :
  let env := npmEnv (npmOutput "/somewhere/else") in
  shouldUseYarn env = false
  ∧ canUseNpm env (rootOf "/home/u" "my-cool-app") = false
  ∧ ∃ e w', createProject env "my-cool-app" true "/home/u" homeWorld = (Thrown e, w')
            ∧ ∀ p content, fs w' !! p = Some (File content) ↔ fs homeWorld !! p = Some (File content).
Proof.
  intros env. split; [reflexivity|]. split; [vm_compute; reflexivity|].
  destruct (createProject_untrusted_npm_fails env "my-cool-app" true "/home/u" homeWorld)
    as (e & w' & Hrun & _ & Hfiles); [reflexivity | vm_compute; reflexivity |].
  exists e, w'. split; [exact Hrun | exact Hfiles].
Defined.

(** ** Writing files *)





(** A write leaves the log as it is. *)
Lemma outputFileSync_log (p : list string) (content : string) (w : World)
    (r : Outcome unit) (w' : World) :
  outputFileSync p content w = (r, w') → log w' = log w.
Proof.
  unfold outputFileSync. destruct (mkdirs _ _ _) as [f'|]; [|by intros [= <- <-]].
  by destruct (_ || _); intros [= <- <-].
Qed.

(** The extractor returns, whatever the archive and the world, and leaves
    the log as it is. *)
Lemma extractEntries_returns (base : list string) (archive : Tree) (w : World) :
  ∃ w', extractEntries base archive w = (Returned tt, w') ∧ log w' = log w.
Proof.
  revert w; induction archive as [|[p content] archive IH]; intros w.
  - by exists w.
  - cbn [extractEntries]. unfold bind at 1, tryCatch.
    destruct (outputFileSync (base ++ p) content w) as [[[]|e] w0] eqn:Hwrite;
      apply outputFileSync_log in Hwrite;
      destruct (IH w0) as (w' & Hrest & Hlog); exists w';
      (split; [exact Hrest | by rewrite Hlog]).
Qed.

(** The template writer leaves the log as it is. *)
Lemma outputTemplateFiles_log (tokens : TokenSet) (base : list string) (files : Tree)
    (w : World) (r : Outcome unit) (w' : World) :
  outputTemplateFiles tokens base files w = (r, w') → log w' = log w.
Proof.
  revert w; induction files as [|file files IH]; intros w; cbn [outputTemplateFiles].
  - by intros [= <- <-].
  - destruct (renderFile tokens file) as [[p content]|]; [|by intros [= <- <-]].
    unfold bind at 1.
    destruct (outputFileSync (base ++ p) content w) as [[[]|e] w0] eqn:Hwrite;
      apply outputFileSync_log in Hwrite.
    + intros Hrest%IH. by rewrite Hrest.
    + by intros [= <- <-].
Qed.

Lemma outputTemplatePackage_log (templateRoot outputRoot : string) (tokens : TokenSet)
    (w : World) (r : Outcome unit) (w' : World) :
  outputTemplatePackage templateRoot outputRoot tokens w = (r, w') → log w' = log w.
Proof.
  unfold outputTemplatePackage. destruct (isDirectory _); [|by intros [= <- <-]].
  apply outputTemplateFiles_log.
Qed.

Lemma ensureDirSync_keeps (p : string) :
  keeps (onlyDirsAdded (segments p)) (ensureDirSync p).
Proof.
  intros w r w'. unfold ensureDirSync.
  destruct (mkdirs _ _ _) as [f'|] eqn:Hmk; intros [= <- <-]; [|reflexivity].
  by apply mkdirs_spec in Hmk as [_ Hmk].
Qed.

(** Whatever relation every write keeps, the extractor and the template
    writer keep. *)
Section Writers.
Context (R : relation (gmap (list string) Node)) `{!PreOrder R}.
Context (Hwrite : ∀ p content, keeps R (outputFileSync p content)).

Lemma extractEntries_keeps_any (base : list string) (archive : Tree) :
  keeps R (extractEntries base archive).
Proof.
  induction archive as [|[p content] archive IH]; cbn [extractEntries].
  - by apply keeps_ret.
  - apply keeps_bind; [done | | intros _; exact IH].
    apply keeps_tryCatch; [done | apply Hwrite | intros _; by apply keeps_ret].
Qed.

Lemma outputTemplateFiles_keeps_any (tokens : TokenSet) (base : list string)
    (files : Tree) :
  keeps R (outputTemplateFiles tokens base files).
Proof.
  induction files as [|file files IH]; cbn [outputTemplateFiles].
  - by apply keeps_ret.
  - destruct (renderFile tokens file) as [[p content]|]; [|by apply keeps_throw].
    apply keeps_bind; [done | apply Hwrite | intros _; exact IH].
Qed.

Lemma outputTemplatePackage_keeps_any (templateRoot outputRoot : string)
    (tokens : TokenSet) :
  keeps R (outputTemplatePackage templateRoot outputRoot tokens).
Proof.
  intros w r w'. unfold outputTemplatePackage.
  destruct (isDirectory _); [apply outputTemplateFiles_keeps_any|].
  by intros [= <- <-].
Qed.

End Writers.

(** ** The template stage and the report *)

Section Stages.
Context (env : Env).


(** Installing and reporting only write to the log. *)
Lemma installAndReport_keeps (bare useYarn : bool) (cwd root : string) :
  keeps eq (installAndReport env bare useYarn cwd root).
Proof.
  unfold installAndReport, loadingMessage, message_stop, Log_warning, Log_info,
    execAsync, initializeGitRepository.
  repeat first
    [ apply keeps_emit; apply _
    | apply keeps_ret; apply _
    | apply keeps_throw; apply _
    | apply keeps_if
    | apply keeps_tryCatch; [apply _ | | intros ?]
    | apply keeps_bind; [apply _ | | intros ?] ].
Qed.

End Stages.

(** ** The whole workflow *)

Section Workflow.
Context (env : Env).

(** [createProject] is its two validation steps followed, when they
    return, by the template stage and the report. *)
Lemma createProject_split (name : string) (bare : bool) (cwd : string) (w : World) :
  createProject env name bare cwd w =
  match (validatePackageName name;;
         validateProjectRoot env (rootOf cwd name) (shouldUseYarn env)) w with
  | (Returned _, w1) =>
      (acquireTemplate env name bare cwd (rootOf cwd name);;
       installAndReport env bare (shouldUseYarn env) cwd (rootOf cwd name)) w1
  | (Thrown e, w1) => (Thrown e, w1)
  end.
Proof.
  unfold createProject, bind.
  destruct (validatePackageName name w) as [[[]|e] w0]; [|reflexivity].
  destruct (validateProjectRoot _ _ _ w0) as [[[]|e] w1]; reflexivity.
Qed.

End Workflow.

(** C3 does not hold of the code.  The root [<cwd>/<basename(packageName)>]
    is the directory the run validates, installs in and reports, and the
    bare template stage writes into it; the remote template stage hands
    the working directory to the writer instead, so the place of the tree
    is decided by the archive and the root has no part in it.  With an
    archive rooted at [{{nameKebabCase}}], the run for [my_app] in
    [/home/u] returns and reports a project at [/home/u/my_app], which it
    leaves empty: the tree is at [/home/u/my-app].  Likewise the run for
    [@acme/my-app] reports [/home/u/my-app] and writes the tree to
    [/home/u/acme-my-app].  The same run for [my-cool-app] fills its root,
    and so does the bare run for [my_app]. *)
Lemma createProject_remote_tree_misses_root :
  let env := yarnEnv (DownloadResolves (Some rootedArchive)) true in
  (∃ w', createProject env "my_app" false "/home/u" homeWorld = (Returned tt, w')
     ∧ rootOf "/home/u" "my_app" = "/home/u/my_app"
     ∧ fs w' !! ["home"; "u"; "my_app"] = Some Dir
     ∧ filesBelow ["home"; "u"; "my_app"] (fs w') = []
     ∧ fs w' !! ["home"; "u"; "my-app"; "package.json"] = Some (File "{ name: my-app }")
     ∧ fs w' !! ["home"; "u"; "my-app"; "README.md"] = Some (File "# My App")
     ∧ Info ["Success! A new Diez (DS) has been created at /home/u/my_app." +:+ nl]
       ∈ log w')
  ∧ (∃ w', createProject env "@acme/my-app" false "/home/u" homeWorld = (Returned tt, w')
     ∧ rootOf "/home/u" "@acme/my-app" = "/home/u/my-app"
     ∧ filesBelow ["home"; "u"; "my-app"] (fs w') = []
     ∧ fs w' !! ["home"; "u"; "acme-my-app"; "package.json"]
       = Some (File "{ name: acme-my-app }"))
  ∧ (∃ w', createProject env "my-cool-app" false "/home/u" homeWorld = (Returned tt, w')
     ∧ rootOf "/home/u" "my-cool-app" = "/home/u/my-cool-app"
     ∧ fs w' !! ["home"; "u"; "my-cool-app"; "package.json"]
       = Some (File "{ name: my-cool-app }"))
  ∧ (∃ w', createProject env "my_app" true "/home/u" bundledWorld = (Returned tt, w')
     ∧ fs w' !! ["home"; "u"; "my_app"; "package.json"]
       = Some (File "{ name: my_app, component: MyApp }"))
  ∧ ∀ (env' : Env) (name cwd root root' : string),
      acquireTemplate env' name false cwd root = acquireTemplate env' name false cwd root'.
Proof.
  intros env.
  split; [|split; [|split; [|split]]].
  - eexists. split; [vm_compute; reflexivity|].
    repeat (split; [vm_compute; reflexivity|]).
    vm_compute. repeat first [apply list_elem_of_here | apply list_elem_of_further].
  - eexists. split; [vm_compute; reflexivity|].
    repeat (split; [vm_compute; reflexivity|]). vm_compute; reflexivity.
  - eexists. split; [vm_compute; reflexivity|].
    repeat (split; [vm_compute; reflexivity|]). vm_compute; reflexivity.
  - eexists. split; [vm_compute; reflexivity|]. vm_compute; reflexivity.
  - reflexivity.
Qed.

(** ** Failures of the template stage and of the installation *)

Section Failures.
Context (env : Env).

(** Without a stream the remote template stage throws, after the two
    warnings of its handler. *)
Lemma acquireTemplate_no_stream (name cwd root : string) (w1 : World) :
  downloadStream env (examplesProjectUrl env) = DownloadResolves None →
  ∃ e w2 l,
    acquireTemplate env name false cwd root w1 = (Thrown e, w2)
    ∧ log w2
      = l ++ [ Warning ["Unable to download template project from the Diez CDN. Are you connected to the internet?"];
               Warning ["If you would like to generate an empty project, you can re-run this command with "
                          +:+ Format_code env "--bare" +:+ "."] ]
    ∧ (is_Some (mkdirs [] (segments (templateRootOf env)) (fs w1)) →
       e = "Unable to download template project from examples.diez.org. Please try again.").
Proof.
  intros Hdownload.
  unfold acquireTemplate, tryCatch, createTemplateProject, downloadAndExtractProject,
    bind, ensureDirSync, Log_info, Log_warning, emit, throw.
  rewrite Hdownload.
  destruct (mkdirs _ _ _) as [f'|]; cbn -[String.append segments].
  - eexists _, _, _. split; [reflexivity|].
    split; [by rewrite <- app_assoc | done].
  - eexists _, _, _. split; [reflexivity|].
    split; [by rewrite <- app_assoc | by intros [? ?]].
Qed.

(** After a failed installation the report still runs to its end. *)
Lemma installAndReport_install_fails (bare useYarn : bool) (cwd root : string) (w2 : World) :
  execSucceeds env (pm useYarn "yarn" "npm" +:+ " install") root = false →
  ∃ w' l,
    installAndReport env bare useYarn cwd root w2 = (Returned tt, w')
    ∧ fs w' = fs w2
    ∧ log w'
      = log w2
        ++ [ LoadingStart "Installing dependencies. This might take a couple of minutes.";
             Warning ["Unable to install dependencies. Are you connected to the Internet?"];
             Warning ["You may need to run "
                        +:+ Format_code env (pm useYarn "yarn" "npm" +:+ " install")
                        +:+ " before " +:+ Format_code env "diez"
                        +:+ " commands will work."];
             LoadingStop ]
        ++ l
    ∧ Info ["Success! A new Diez (DS) has been created at "
              +:+ Format_comment env root +:+ "." +:+ nl] ∈ l.
Proof.
  intros Hexec.
  unfold installAndReport, tryCatch, bind, execAsync, initializeGitRepository,
    loadingMessage, message_stop, Log_info, Log_warning, emit, throw, ret.
  rewrite Hexec.
  destruct (gitSucceeds env root), bare; cbn -[String.append relative];
    eexists _, _; (split; [reflexivity|]); (split; [reflexivity|]);
    (split; [cbn -[String.append relative]; rewrite <- !app_assoc; reflexivity|]);
    set_solver.
Qed.

End Failures.

(** C4: when the download gives no stream, a non-bare [createProject]
    throws; and once the name and the root have been validated, the log ends
    with the two warnings of the handler, the second of which proposes to
    run again with [--bare], and the error thrown asks to try again (the
    scratch directory having been made). *)
Theorem createProject_no_stream (env : Env) (name cwd : string) (w : World) :
  downloadStream env (examplesProjectUrl env) = DownloadResolves None →
  (∃ e w', createProject env name false cwd w = (Thrown e, w'))
  ∧ ∀ w1, validated env name cwd w w1 →
      ∃ e w' l,
        createProject env name false cwd w = (Thrown e, w')
        ∧ log w'
          = l ++ [ Warning ["Unable to download template project from the Diez CDN. Are you connected to the internet?"];
                   Warning ["If you would like to generate an empty project, you can re-run this command with "
                              +:+ Format_code env "--bare" +:+ "."] ]
        ∧ (is_Some (mkdirs [] (segments (templateRootOf env)) (fs w1)) →
           e = "Unable to download template project from examples.diez.org. Please try again.").
Proof.
  intros Hdownload. split.
  - rewrite createProject_split.
    destruct ((validatePackageName name;; validateProjectRoot _ _ _) w) as [[[]|e] w1];
      [|by eexists _, _].
    destruct (acquireTemplate_no_stream env name cwd (rootOf cwd name) w1 Hdownload)
      as (e & w2 & l & Hacquire & _).
    unfold bind at 1. rewrite Hacquire. by eexists _, _.
  - intros w1 Hvalidated. rewrite createProject_split.
    unfold validated in Hvalidated. rewrite Hvalidated.
    destruct (acquireTemplate_no_stream env name cwd (rootOf cwd name) w1 Hdownload)
      as (e & w2 & l & Hacquire & Hlog & Herror).
    unfold bind at 1. rewrite Hacquire. by eexists e, w2, l.
Qed.

Lemma createProject_no_stream_witness :
  let env := sampleEnv (npmOutput "/home/u/my-cool-app") (DownloadResolves None) true in
  ∃ e w1 w' l,
    validated env "my-cool-app" "/home/u" homeWorld w1
    ∧ createProject env "my-cool-app" false "/home/u" homeWorld = (Thrown e, w')
    ∧ log w'
      = l ++ [ Warning ["Unable to download template project from the Diez CDN. Are you connected to the internet?"];
               Warning ["If you would like to generate an empty project, you can re-run this command with `--bare`."] ]
    ∧ e = "Unable to download template project from examples.diez.org. Please try again.".
Proof.
  intros env.
  destruct (createProject_no_stream env "my-cool-app" "/home/u" homeWorld eq_refl)
    as [_ Hvalidated].
  assert (Hv : validated env "my-cool-app" "/home/u" homeWorld
                 (withFs (<[ ["home"; "u"; "my-cool-app"] := Dir ]> homeFs) homeWorld)).
  { vm_compute; reflexivity. }
  destruct (Hvalidated _ Hv) as (e & w' & l & Hrun & Hlog & Herror).
  eexists e, _, w', l. split; [exact Hv|]. split; [exact Hrun|]. split; [exact Hlog|].
  apply Herror. vm_compute. eexists; reflexivity.
Defined.

(** C5: once the template is in place, a failing installation does not make
    [createProject] throw: it returns, having logged the warning that tells
    how to install by hand and, after it, the success report; the file
    system is the one the template stage left. *)
Theorem createProject_install_failure (env : Env) (name : string) (bare : bool)
    (cwd : string) (w w1 w2 : World) :
  validated env name cwd w w1 →
  acquireTemplate env name bare cwd (rootOf cwd name) w1 = (Returned tt, w2) →
  execSucceeds env (pm (shouldUseYarn env) "yarn" "npm" +:+ " install") (rootOf cwd name)
  = false →
  ∃ w' l,
    createProject env name bare cwd w = (Returned tt, w')
    ∧ fs w' = fs w2
    ∧ log w'
      = log w2
        ++ [ LoadingStart "Installing dependencies. This might take a couple of minutes.";
             Warning ["Unable to install dependencies. Are you connected to the Internet?"];
             Warning ["You may need to run "
                        +:+ Format_code env (pm (shouldUseYarn env) "yarn" "npm" +:+ " install")
                        +:+ " before " +:+ Format_code env "diez"
                        +:+ " commands will work."];
             LoadingStop ]
        ++ l
    ∧ Info ["Success! A new Diez (DS) has been created at "
              +:+ Format_comment env (rootOf cwd name) +:+ "." +:+ nl] ∈ l.
Proof.
  intros Hvalidated Hacquire Hexec. rewrite createProject_split.
  unfold validated in Hvalidated. rewrite Hvalidated.
  unfold bind at 1. rewrite Hacquire.
  exact (installAndReport_install_fails env bare _ cwd _ w2 Hexec).
Qed.

Lemma createProject_install_failure_witness :
  let env := sampleEnv (npmOutput "/home/u/my-cool-app")
                       (DownloadResolves (Some sampleArchive)) false in
  ∃ w',
    createProject env "my-cool-app" false "/home/u" homeWorld = (Returned tt, w')
    ∧ Warning ["You may need to run `npm install` before `diez` commands will work."]
      ∈ log w'
    ∧ Info ["Success! A new Diez (DS) has been created at /home/u/my-cool-app." +:+ nl]
      ∈ log w'.
Proof.
  intros env.
  assert (Hv : validated env "my-cool-app" "/home/u" homeWorld
                 (withFs (<[ ["home"; "u"; "my-cool-app"] := Dir ]> homeFs) homeWorld)).
  { vm_compute; reflexivity. }
  destruct (acquireTemplate env "my-cool-app" false "/home/u" (rootOf "/home/u" "my-cool-app")
              (withFs (<[ ["home"; "u"; "my-cool-app"] := Dir ]> homeFs) homeWorld))
    as [r w2] eqn:Hacquire.
  assert (Hr : r = Returned tt).
  { apply (f_equal fst) in Hacquire. vm_compute in Hacquire. congruence. }
  subst r.
  destruct (createProject_install_failure env "my-cool-app" false "/home/u"
              homeWorld _ w2 Hv Hacquire eq_refl)
    as (w' & l & Hrun & _ & Hlog & Hsuccess).
  exists w'. split; [exact Hrun|]. rewrite Hlog. split.
  - apply elem_of_app; right. apply elem_of_app; left.
    do 2 apply list_elem_of_further. apply list_elem_of_here.
  - apply elem_of_app; right. apply elem_of_app; right. exact Hsuccess.
Defined.

(** ** Well-formedness is kept *)

Lemma prefix_snoc_proper (q l : list string) (x : string) :
  q `prefix_of` l ++ [x] → q ≠ l ++ [x] → q `prefix_of` l.
Proof.
  intros [k Hk] Hne. destruct k as [|y k _] using rev_ind.
  - rewrite app_nil_r in Hk. by subst.
  - rewrite app_assoc in Hk. apply app_inj_tail in Hk as [-> _]. by eexists.
Qed.

Lemma wf_fs_insert_dir (f : gmap (list string) Node) (p : list string) :
  wf_fs f → (∀ q, q `prefix_of` p → q ≠ p → f !! q = Some Dir) →
  wf_fs (<[p := Dir]> f).
Proof.
  intros Hwf Hp p' q n Hp' Hq Hne.
  destruct (decide (q = p)) as [->|Hqp]; [apply lookup_insert_eq|].
  rewrite lookup_insert_ne by done.
  destruct (decide (p' = p)) as [->|Hpp]; [by apply Hp|].
  rewrite lookup_insert_ne in Hp' by done. by apply (Hwf p' q n).
Qed.

Lemma wf_fs_insert_file (f : gmap (list string) Node) (p : list string) (c : string) :
  wf_fs f → (∀ q, q `prefix_of` p → q ≠ p → f !! q = Some Dir) →
  isDirectory (f !! p) = false →
  wf_fs (<[p := File c]> f).
Proof.
  intros Hwf Hp Hnodir p' q n Hp' Hq Hne.
  destruct (decide (p' = p)) as [->|Hpp].
  - rewrite lookup_insert_ne by done. by apply Hp.
  - rewrite lookup_insert_ne in Hp' by done.
    destruct (decide (q = p)) as [->|Hqp].
    + by rewrite (Hwf p' p n Hp' Hq Hne) in Hnodir.
    + rewrite lookup_insert_ne by done. by apply (Hwf p' q n).
Qed.

Lemma mkdirs_wf (rest done : list string) (f f' : gmap (list string) Node) :
  wf_fs f → (∀ q, q `prefix_of` done → q ≠ done → f !! q = Some Dir) →
  mkdirs done rest f = Some f' → wf_fs f'.
Proof.
  revert done f; induction rest as [|seg rest IH]; intros done f Hwf Hdone Hmk;
    cbn [mkdirs] in Hmk.
  - destruct (f !! done) as [[c|]|]; [done|..]; injection Hmk as <-;
      [done | by apply wf_fs_insert_dir].
  - destruct (f !! done) as [[c|]|] eqn:Hhere; [done|..];
      (eapply IH; [ | | exact Hmk]).
    + done.
    + intros q Hq Hne. apply prefix_snoc_proper in Hq; [|done].
      destruct (decide (q = done)) as [->|Hqd]; [done | by apply Hdone].
    + by apply wf_fs_insert_dir.
    + intros q Hq Hne. apply prefix_snoc_proper in Hq; [|done].
      destruct (decide (q = done)) as [->|Hqd]; [apply lookup_insert_eq|].
      rewrite lookup_insert_ne by done. by apply Hdone.
Qed.

(** The relation "well-formedness carries over". *)
#[global] Instance wf_carried_preorder :
  PreOrder (λ f f' : gmap (list string) Node, wf_fs f → wf_fs f').
Proof. split; [by intros f | intros f1 f2 f3 H12 H23 H1; by apply H23, H12]. Qed.

Lemma ensureDirSync_wf (p : string) :
  keeps (λ f f', wf_fs f → wf_fs f') (ensureDirSync p).
Proof.
  intros w r w'. unfold ensureDirSync.
  destruct (mkdirs _ _ _) as [f'|] eqn:Hmk; intros [= <- <-] Hwf; [|done].
  eapply mkdirs_wf; [exact Hwf | | exact Hmk].
  intros q ->%prefix_nil_inv; done.
Qed.

Lemma outputFileSync_wf (p : list string) (content : string) :
  keeps (λ f f', wf_fs f → wf_fs f') (outputFileSync p content).
Proof.
  intros w r w'. unfold outputFileSync.
  destruct (mkdirs _ _ _) as [f'|] eqn:Hmk; [|by intros [= <- <-]].
  assert (Hwf' : wf_fs (fs w) → wf_fs f').
  { intros Hwf. eapply mkdirs_wf; [exact Hwf | | exact Hmk].
    intros q ->%prefix_nil_inv; done. }
  apply mkdirs_spec in Hmk as [Hparent _]. cbn [app] in Hparent.
  destruct (isDirectory (f' !! p)) eqn:Hdir; cbn [orb]; [by intros [= <- <-]|].
  case_bool_decide as Hnil; intros [= <- <-] Hwf; [by apply Hwf'|].
  cbn [fs withFs]. apply wf_fs_insert_file; [by apply Hwf' | | done].
  intros q Hq Hne. apply (wf_fs_ancestors f' (removelast p)); [by apply Hwf' | done |].
  rewrite (app_removelast_last "" Hnil) in Hq, Hne. by eapply prefix_snoc_proper.
Qed.

(** X5, invariant of the workflow: [createProject] leaves a well-formed file
    system well formed, whatever its outcome. *)
Lemma createProject_wf (env : Env) (name : string) (bare : bool) (cwd : string)
    (w : World) (r : Outcome unit) (w' : World) :
  createProject env name bare cwd w = (r, w') → wf_fs (fs w) → wf_fs (fs w').
Proof.
  revert w r w'. change (keeps (λ f f', wf_fs f → wf_fs f') (createProject env name bare cwd)).
  assert (Hout : ∀ a b tokens,
            keeps (λ f f', wf_fs f → wf_fs f') (outputTemplatePackage a b tokens)).
  { intros a b tokens. apply outputTemplatePackage_keeps_any; [apply _|].
    apply outputFileSync_wf. }
  unfold createProject.
  apply keeps_bind; [apply _ | | intros _; apply keeps_bind; [apply _ | | intros _;
    apply keeps_bind; [apply _ | | intros _]]].
  - eapply keeps_weaken; [|apply validatePackageName_keeps]. by intros f f' ->.
  - generalize (shouldUseYarn env); intros useYarn.
    intros w r w'. rewrite validateProjectRoot_cases.
    destruct (fs w !! segments (rootOf cwd name)) as [[c|]|];
      [by intros [= <- <-]| |];
      (destruct (mkdirs _ _ _) as [f'|] eqn:Hmk; [|by intros [= <- <-]];
       assert (Hwf' : wf_fs (fs w) → wf_fs f')
         by (intros Hwf; eapply mkdirs_wf;
               [exact Hwf | intros q ->%prefix_nil_inv; done | exact Hmk]);
       case_bool_decide; [by intros [= <- <-]|];
       destruct useYarn; [by intros [= <- <-]|];
       destruct (canUseNpm _ _); by intros [= <- <-]).
  - unfold acquireTemplate. destruct bare; [apply Hout|].
    apply keeps_tryCatch; [apply _ | | intros e].
    + unfold createTemplateProject, downloadAndExtractProject, extract, Log_info.
      apply keeps_bind; [apply _ | apply ensureDirSync_wf | intros _].
      apply keeps_bind; [apply _ | | intros _; apply Hout].
      apply keeps_bind; [apply _ | apply keeps_emit; apply _ | intros _].
      destruct (downloadStream _ _) as [message|[stream|]];
        [ apply keeps_throw; apply _
        | apply extractEntries_keeps_any; [apply _ | apply outputFileSync_wf]
        | apply keeps_throw; apply _ ].
    + unfold Log_warning.
      repeat (apply keeps_bind; [apply _ | apply keeps_emit; apply _ | intros _]).
      apply keeps_throw; apply _.
  - eapply keeps_weaken; [|apply installAndReport_keeps]. by intros f f' ->.
Qed.


(** * Further properties of the workflow *)

(** ** The log and the validations *)

Section LogFrame.
Context (env : Env).

(** The root validator never logs. *)
Lemma validateProjectRoot_log (root : string) (useYarn : bool) (w : World)
    (r : Outcome unit) (w' : World) :
  validateProjectRoot env root useYarn w = (r, w') → log w' = log w.
Proof.
  rewrite validateProjectRoot_cases.
  destruct (fs w !! segments root) as [[c|]|]; [by intros [= <- <-]| |];
    (destruct (mkdirs _ _ _) as [f'|]; [|by intros [= <- <-]];
     case_bool_decide; [by intros [= <- <-]|];
     destruct useYarn; [by intros [= <- <-]|];
     destruct (canUseNpm _ _); by intros [= <- <-]).
Qed.

(** What a validated run has passed. *)
Lemma validated_inv (name cwd : string) (w w1 : World) :
  validated env name cwd w w1 →
  validForNewPackages (validateNpmPackageName name) = true
  ∧ validateProjectRoot env (rootOf cwd name) (shouldUseYarn env) w = (Returned tt, w1).
Proof.
  unfold validated, bind.
  destruct (validForNewPackages (validateNpmPackageName name)) eqn:Hvalid.
  - rewrite validatePackageName_valid by done. by intros ->.
  - destruct (validatePackageName_invalid name w Hvalid) as [l ->]. discriminate.
Qed.

Lemma validated_intro (name cwd : string) (w w1 : World) :
  validForNewPackages (validateNpmPackageName name) = true →
  validateProjectRoot env (rootOf cwd name) (shouldUseYarn env) w = (Returned tt, w1) →
  validated env name cwd w w1.
Proof.
  intros Hvalid Hroot. unfold validated, bind.
  by rewrite validatePackageName_valid.
Qed.

(** The root validator returns exactly when the root is free and the package
    manager can be trusted. *)
Lemma validateProjectRoot_returned (root : string) (useYarn : bool) (w w1 : World) :
  validateProjectRoot env root useYarn w = (Returned tt, w1) →
  isFile (fs w !! segments root) = false
  ∧ (useYarn = true ∨ canUseNpm env root = true)
  ∧ fs w1 !! segments (joinPath root "package.json") = None
  ∧ mkdirs [] (segments root) (fs w) = Some (fs w1)
  ∧ log w1 = log w.
Proof.
  rewrite validateProjectRoot_cases.
  destruct (fs w !! segments root) as [[c|]|]; [discriminate| |];
    (destruct (mkdirs _ _ _) as [f'|]; [|discriminate];
     case_bool_decide as Hpkg; [discriminate|];
     apply eq_None_not_Some in Hpkg;
     destruct useYarn;
       [ intros [= <-]; repeat split; by auto
       | destruct (canUseNpm _ _); [|discriminate];
         intros [= <-]; repeat split; by auto ]).
Qed.

End LogFrame.

Lemma prefix_between (done q rest : list string) (seg : string) :
  done `prefix_of` q → q `prefix_of` done ++ seg :: rest →
  q = done ∨ done ++ [seg] `prefix_of` q.
Proof.
  intros [k ->] Hq. apply prefix_app_inv in Hq.
  destruct k as [|x k]; [left; by rewrite app_nil_r|].
  right. apply prefix_cons_inv_1 in Hq as ->. exists k. by rewrite <- app_assoc.
Qed.

(** After the walk, every prefix it passed is a directory. *)
Lemma mkdirs_prefixes_dir (rest done : list string) (f f' : gmap (list string) Node) :
  mkdirs done rest f = Some f' →
  ∀ q, done `prefix_of` q → q `prefix_of` done ++ rest → f' !! q = Some Dir.
Proof.
  revert done f; induction rest as [|seg rest IH]; intros done f Hmk q Hq1 Hq2.
  - rewrite app_nil_r in Hq2.
    assert (q = done) as -> by (by apply (anti_symm prefix)).
    apply mkdirs_spec in Hmk as [Hdir _]. by rewrite app_nil_r in Hdir.
  - destruct (prefix_between _ _ _ _ Hq1 Hq2) as [->|Hnext].
    + cbn [mkdirs] in Hmk.
      assert (Hkept : ∀ f1, f1 !! done = Some Dir →
                mkdirs (done ++ [seg]) rest f1 = Some f' → f' !! done = Some Dir).
      { intros f1 Hdone Hmk1. apply mkdirs_spec in Hmk1 as [_ Hframe].
        destruct (Hframe done) as [->|(Hnone & _)]; [done | congruence]. }
      destruct (f !! done) as [[c|]|] eqn:Hdone; [done|..].
      * by apply (Hkept f).
      * apply (Hkept (<[done := Dir]> f)); [apply lookup_insert_eq | done].
    + cbn [mkdirs] in Hmk. rewrite (assoc_L _ done [seg] rest : done ++ seg :: rest = _) in Hq2.
      destruct (f !! done) as [[c|]|]; [done|..]; by eapply IH.
Qed.

(** ** The root validator, further *)

(** X1: the probe of [npm] matters only when yarn is not selected and the
    probe answers false: with yarn selected the outcome of
    [validateProjectRoot] is the same in every environment, and without yarn
    but with a probe that answers true, it is the outcome with yarn. *)
Theorem validateProjectRoot_npm_only_without_yarn (env : Env) (root : string) (w : World) :
  (∀ env', validateProjectRoot env root true w = validateProjectRoot env' root true w)
  ∧ (canUseNpm env root = true →
     validateProjectRoot env root false w = validateProjectRoot env root true w).
Proof.
  split.
  - intros env'. by rewrite !validateProjectRoot_cases.
  - intros Hnpm. rewrite !validateProjectRoot_cases, Hnpm. reflexivity.
Qed.

Lemma validateProjectRoot_npm_only_without_yarn_witness :
  validateProjectRoot (npmEnv (npmOutput "/somewhere/else")) "/home/u/app" true homeWorld
  = validateProjectRoot (npmEnv SpawnThrows) "/home/u/app" true homeWorld
  ∧ validateProjectRoot (npmEnv (npmOutput "/home/u/app")) "/home/u/app" false homeWorld
    = validateProjectRoot (npmEnv (npmOutput "/home/u/app")) "/home/u/app" true homeWorld.
Proof.
  split.
  - apply (proj1 (validateProjectRoot_npm_only_without_yarn
                    (npmEnv (npmOutput "/somewhere/else")) "/home/u/app" homeWorld)).
  - apply (proj2 (validateProjectRoot_npm_only_without_yarn
                    (npmEnv (npmOutput "/home/u/app")) "/home/u/app" homeWorld)).
    vm_compute; reflexivity.
Defined.

(** X2: validating a root a second time changes nothing: when
    [validateProjectRoot] has returned, a second call in the world it left
    returns and leaves that world. *)
Theorem validateProjectRoot_again (env : Env) (root : string) (useYarn : bool)
    (w w1 : World) :
  validateProjectRoot env root useYarn w = (Returned tt, w1) →
  validateProjectRoot env root useYarn w1 = (Returned tt, w1).
Proof.
  intros Hrun. apply validateProjectRoot_returned in Hrun as (_ & Hpm & Hpkg & Hmk & _).
  rewrite validateProjectRoot_cases.
  pose proof (mkdirs_prefixes_dir _ _ _ _ Hmk) as Hdirs. cbn [app] in Hdirs.
  rewrite (Hdirs (segments root)) by (done || apply prefix_nil).
  rewrite mkdirs_id by (intros q Hq1 Hq2; by apply Hdirs).
  rewrite Hpkg, bool_decide_false by (by intros [? ?]).
  destruct w1 as [f1 l1]. destruct Hpm as [->| ->]; [done|]. by destruct useYarn.
Qed.

Lemma validateProjectRoot_again_witness :
  let env := npmEnv (npmOutput "/home/u/app") in
  ∃ w1, validateProjectRoot env "/home/u/app" false homeWorld = (Returned tt, w1)
        ∧ fs w1 !! ["home"; "u"; "app"] = Some Dir
        ∧ validateProjectRoot env "/home/u/app" false w1 = (Returned tt, w1).
Proof.
  intros env. eexists. split; [vm_compute; reflexivity|].
  split; [vm_compute; reflexivity|].
  apply (validateProjectRoot_again env "/home/u/app" false homeWorld).
  vm_compute; reflexivity.
Defined.

(** X3: with a valid name, a regular file at the root or a project already
    at the root stops [createProject] at once: it throws the error of the
    root validator and leaves the world, file system and log, as it was
    (nothing is downloaded, written or logged). *)
Theorem createProject_root_taken (env : Env) (name : string) (bare : bool)
    (cwd : string) (w : World) :
  validForNewPackages (validateNpmPackageName name) = true →
  (∀ content, fs w !! segments (rootOf cwd name) = Some (File content) →
     createProject env name bare cwd w
     = (Thrown ("Found a non-directory at " +:+ rootOf cwd name +:+ "."), w))
  ∧ (wf_fs (fs w) → fs w !! segments (rootOf cwd name) = Some Dir →
     is_Some (fs w !! segments (joinPath (rootOf cwd name) "package.json")) →
     createProject env name bare cwd w
     = (Thrown ("A Node.js project already exists at " +:+ rootOf cwd name +:+ "."), w)).
Proof.
  intros Hvalid. split.
  - intros content Hroot. rewrite createProject_split. unfold bind.
    rewrite validatePackageName_valid by done.
    by rewrite validateProjectRoot_cases, Hroot.
  - intros Hwf Hroot Hpkg. rewrite createProject_split. unfold bind.
    rewrite validatePackageName_valid by done.
    rewrite validateProjectRoot_cases, Hroot.
    rewrite mkdirs_id by (intros q _ Hq; by apply (wf_fs_ancestors _ _ Hwf Hroot)).
    rewrite bool_decide_true by done. by destruct w.
Qed.

Lemma createProject_root_taken_witness :
  createProject (npmEnv SpawnThrows) "app" false "/home/u" fileWorld
  = (Thrown "Found a non-directory at /home/u/app.", fileWorld)
  ∧ createProject (npmEnv SpawnThrows) "app" true "/home/u" projectWorld
    = (Thrown "A Node.js project already exists at /home/u/app.", projectWorld).
Proof.
  split.
  - apply (proj1 (createProject_root_taken (npmEnv SpawnThrows) "app" false "/home/u"
                    fileWorld eq_refl) "notes").
    vm_compute; reflexivity.
  - apply (proj2 (createProject_root_taken (npmEnv SpawnThrows) "app" true "/home/u"
                    projectWorld eq_refl)).
    + apply wf_fsb_spec. vm_compute; reflexivity.
    + vm_compute; reflexivity.
    + vm_compute. eexists; reflexivity.
Defined.

(** ** Relations every step keeps *)

Section KeepsAny.
Context (R : relation (gmap (list string) Node)) `{!PreOrder R}.
Context (HensureDir : ∀ p, keeps R (ensureDirSync p)).
Context (Hwrite : ∀ p content, keeps R (outputFileSync p content)).
Context (env : Env).

Lemma keeps_unchanged {A : Type} (m : M A) : (∀ w, (m w).2 = w) → keeps R m.
Proof. intros Hm w r w' Hrun. specialize (Hm w). rewrite Hrun in Hm. by subst. Qed.

Lemma validateProjectRoot_keeps_any (root : string) (useYarn : bool) :
  keeps R (validateProjectRoot env root useYarn).
Proof.
  unfold validateProjectRoot.
  apply keeps_bind; [done | | intros taken].
  - apply keeps_bind; [done | by apply keeps_unchanged | intros here].
    apply keeps_if; [|by apply keeps_ret].
    apply keeps_bind; [done | | intros isDir; by apply keeps_ret].
    apply keeps_unchanged. intros w. unfold lstatSync_isDirectory. by destruct (fs w !! _).
  - apply keeps_if; [by apply keeps_throw|].
    apply keeps_bind; [done | apply HensureDir | intros _].
    apply keeps_bind; [done | by apply keeps_unchanged | intros hasPackageJson].
    repeat first [ by apply keeps_throw | by apply keeps_ret | apply keeps_if ].
Qed.

Lemma acquireTemplate_keeps_any (name : string) (bare : bool) (cwd root : string) :
  keeps R (acquireTemplate env name bare cwd root).
Proof.
  unfold acquireTemplate. destruct bare; [by apply outputTemplatePackage_keeps_any|].
  apply keeps_tryCatch; [done | | intros e].
  - unfold createTemplateProject, downloadAndExtractProject, extract, Log_info.
    apply keeps_bind; [done | apply HensureDir | intros _].
    apply keeps_bind; [done | | intros _; by apply outputTemplatePackage_keeps_any].
    apply keeps_bind; [done | by apply keeps_emit | intros _].
    destruct (downloadStream _ _) as [message|[stream|]];
      [by apply keeps_throw | by apply extractEntries_keeps_any | by apply keeps_throw].
  - unfold Log_warning.
    repeat (apply keeps_bind; [done | by apply keeps_emit | intros _]).
    by apply keeps_throw.
Qed.

Lemma installAndReport_keeps_any (bare useYarn : bool) (cwd root : string) :
  keeps R (installAndReport env bare useYarn cwd root).
Proof.
  eapply keeps_weaken; [|apply installAndReport_keeps]. by intros f f' ->.
Qed.

End KeepsAny.

(** ** Nothing is removed *)

#[global] Instance kindKept_preorder : PreOrder kindKept.
Proof.
  split.
  - by intros f p.
  - intros f1 f2 f3 H12 H23 p. destruct (H12 p) as [Hd12 Hf12], (H23 p) as [Hd23 Hf23].
    split; auto.
Qed.

Lemma onlyDirsAdded_kindKept (target : list string) (f f' : gmap (list string) Node) :
  onlyDirsAdded target f f' → kindKept f f'.
Proof.
  intros H p. destruct (H p) as [->|(Hnone & _)]; [done|].
  rewrite Hnone. split; [discriminate | discriminate].
Qed.

Lemma ensureDirSync_kindKept (p : string) : keeps kindKept (ensureDirSync p).
Proof.
  eapply keeps_weaken; [|apply ensureDirSync_keeps].
  intros f f'. apply onlyDirsAdded_kindKept.
Qed.

Lemma outputFileSync_kindKept (p : list string) (content : string) :
  keeps kindKept (outputFileSync p content).
Proof.
  intros w r w'. unfold outputFileSync.
  destruct (mkdirs _ _ _) as [f'|] eqn:Hmk; [|by intros [= <- <-]].
  apply mkdirs_spec in Hmk as [_ Hmk%onlyDirsAdded_kindKept].
  destruct (isDirectory (f' !! p)) eqn:Hdir; cbn [orb]; [by intros [= <- <-]|].
  case_bool_decide; intros [= <- <-]; [done|].
  etrans; [exact Hmk|]. intros q. cbn [fs withFs].
  destruct (decide (q = p)) as [->|Hne].
  - rewrite lookup_insert_eq. split; [|done]. intros Hq. by rewrite Hq in Hdir.
  - by rewrite lookup_insert_ne.
Qed.

(** The report always returns. *)
Lemma installAndReport_returns (env : Env) (bare useYarn : bool) (cwd root : string)
    (w : World) :
  ∃ w', installAndReport env bare useYarn cwd root w = (Returned tt, w').
Proof.
  unfold installAndReport, tryCatch, bind, execAsync, initializeGitRepository,
    loadingMessage, message_stop, Log_info, Log_warning, emit, throw, ret.
  destruct (execSucceeds env _ root), (gitSucceeds env root), bare; by eexists.
Qed.

(** X4: up to the installation, [createProject] removes nothing.  Whatever
    their outcome, the validations and the template stage leave every
    directory of the initial file system a directory and every regular file
    a regular file.  A run of [createProject] that throws has thrown in one
    of these steps, with their error and their world: it has not reached
    the installation, and has removed nothing. *)
Theorem createProject_thrown_removes_nothing (env : Env) (name : string) (bare : bool)
    (cwd : string) (w : World) :
  let stages :=
    validatePackageName name;;
    validateProjectRoot env (rootOf cwd name) (shouldUseYarn env);;
    acquireTemplate env name bare cwd (rootOf cwd name) in
  kindKept (fs w) (fs (stages w).2)
  ∧ ∀ e w', createProject env name bare cwd w = (Thrown e, w') →
      stages w = (Thrown e, w') ∧ kindKept (fs w) (fs w').
Proof.
  intros stages.
  assert (Hstages : keeps kindKept stages).
  { unfold stages.
    apply keeps_bind; [apply _ | | intros _; apply keeps_bind; [apply _ | | intros _]].
    - eapply keeps_weaken; [|apply validatePackageName_keeps]. by intros f f' ->.
    - apply validateProjectRoot_keeps_any; [apply _ | apply ensureDirSync_kindKept].
    - apply acquireTemplate_keeps_any;
        [apply _ | apply ensureDirSync_kindKept | apply outputFileSync_kindKept]. }
  split.
  - destruct (stages w) as [r w1] eqn:Hrun. by apply Hstages in Hrun.
  - intros e w' Hrun.
    assert (Hthrown : stages w = (Thrown e, w')).
    { revert Hrun. unfold stages, createProject, bind.
      destruct (validatePackageName name w) as [[[]|e0] w0]; [|done].
      destruct (validateProjectRoot _ _ _ w0) as [[[]|e1] w1]; [|done].
      destruct (acquireTemplate _ _ _ _ _ w1) as [[[]|e2] w2]; [|done].
      destruct (installAndReport_returns env bare (shouldUseYarn env) cwd
                  (rootOf cwd name) w2) as [w3 ->].
      discriminate. }
    split; [exact Hthrown|]. by apply Hstages in Hthrown.
Qed.

(** The remote run without a stream: it throws, and the home directory is
    still there. *)
Lemma createProject_thrown_removes_nothing_witness :
  let env := sampleEnv (npmOutput "/home/u/my-cool-app") (DownloadResolves None) true in
  ∃ e w', createProject env "my-cool-app" false "/home/u" homeWorld = (Thrown e, w')
          ∧ kindKept (fs homeWorld) (fs w')
          ∧ fs w' !! ["home"; "u"] = Some Dir.
Proof.
  intros env.
  destruct (createProject env "my-cool-app" false "/home/u" homeWorld) as [r w'] eqn:Hrun.
  assert (Hr : ∃ e, r = Thrown e).
  { apply (f_equal fst) in Hrun. vm_compute in Hrun. subst r. by eexists. }
  destruct Hr as [e ->]. exists e, w'. split; [reflexivity|].
  destruct (proj2 (createProject_thrown_removes_nothing env "my-cool-app" false "/home/u"
                     homeWorld) e w' Hrun) as [_ Hkind].
  split; [exact Hkind|]. by apply Hkind.
Defined.

Lemma createProject_wf_witness :
  let env := sampleEnv (npmOutput "/home/u/my-cool-app")
                       (DownloadResolves (Some sampleArchive)) true in
  wf_fs (fs homeWorld)
  ∧ wf_fs (fs (createProject env "my-cool-app" false "/home/u" homeWorld).2).
Proof.
  intros env.
  assert (Hwf : wf_fs (fs homeWorld)) by (apply wf_fsb_spec; vm_compute; reflexivity).
  split; [exact Hwf|].
  destruct (createProject env "my-cool-app" false "/home/u" homeWorld) as [r w'] eqn:Hrun.
  exact (createProject_wf env "my-cool-app" false "/home/u" homeWorld r w' Hrun Hwf).
Defined.

(** ** What a run that returns has passed *)

Section Returned.
Context (env : Env).

(** The remote template stage returns only with a stream. *)
Lemma acquireTemplate_remote_returned (name cwd root : string) (w1 w2 : World) :
  acquireTemplate env name false cwd root w1 = (Returned tt, w2) →
  (∃ archive, downloadStream env (examplesProjectUrl env) = DownloadResolves (Some archive))
  ∧ ∃ l, log w2 = log w1 ++ l ∧ forallb (λ e, negb (isWarning e)) l = true.
Proof.
  unfold acquireTemplate, tryCatch.
  destruct (createTemplateProject env cwd name w1) as [[[]|e] wc] eqn:Hcreate;
    [intros [= <-] | discriminate].
  unfold createTemplateProject in Hcreate.
  apply bind_returned in Hcreate as ([] & wa & Hmkdir & Hcreate).
  apply bind_returned in Hcreate as ([] & wb & Hextract & Houtput).
  unfold downloadAndExtractProject in Hextract.
  apply bind_returned in Hextract as ([] & wi & Hinfo & Hextract).
  injection Hinfo as <-.
  assert (Hwa : log wa = log w1).
  { revert Hmkdir. unfold ensureDirSync. destruct (mkdirs _ _ _); by intros [= <-]. }
  destruct (downloadStream _ _) as [message|[stream|]]; [discriminate| |discriminate].
  split; [by eexists|].
  unfold extract in Hextract.
  destruct (extractEntries_returns (segments (templateRootOf env)) stream
              (withLog (log wa ++ [Info ["Downloading template project from the Diez CDN..."]]) wa))
    as (wb' & Hreturns & Hlog).
  rewrite Hreturns in Hextract. injection Hextract as ->.
  apply outputTemplatePackage_log in Houtput.
  exists [Info ["Downloading template project from the Diez CDN..."]].
  split; [|reflexivity].
  rewrite Houtput, Hlog. cbn [log withLog]. by rewrite Hwa.
Qed.

Lemma acquireTemplate_bare_log (name cwd root : string) (w1 : World)
    (r : Outcome unit) (w2 : World) :
  acquireTemplate env name true cwd root w1 = (r, w2) → log w2 = log w1.
Proof. unfold acquireTemplate. apply outputTemplatePackage_log. Qed.

End Returned.

(** X6: a run of [createProject] that returns has passed every check: the
    name is valid for new packages; yarn is selected or the probe of [npm]
    answered true; the root was not a regular file and held no
    [package.json]; in remote mode the download gave a stream; and the root
    is a directory in the world the run leaves. *)
Theorem createProject_returned_checked (env : Env) (name : string) (bare : bool)
    (cwd : string) (w w' : World) :
  createProject env name bare cwd w = (Returned tt, w') →
  validForNewPackages (validateNpmPackageName name) = true
  ∧ (shouldUseYarn env = true ∨ canUseNpm env (rootOf cwd name) = true)
  ∧ isFile (fs w !! segments (rootOf cwd name)) = false
  ∧ fs w !! segments (joinPath (rootOf cwd name) "package.json") = None
  ∧ (bare = false →
     ∃ archive, downloadStream env (examplesProjectUrl env) = DownloadResolves (Some archive))
  ∧ fs w' !! segments (rootOf cwd name) = Some Dir.
Proof.
  intros Hrun. rewrite createProject_split in Hrun.
  destruct ((validatePackageName name;; validateProjectRoot _ _ _) w)
    as [[[]|e] w1] eqn:Hvalidated; [|discriminate].
  apply validated_inv in Hvalidated as [Hvalid Hroot].
  pose proof (validateProjectRoot_returned _ _ _ _ _ Hroot) as (Hfile & Hpm & Hpkg & Hmk & _).
  apply mkdirs_spec in Hmk as [Hdir Hframe]. cbn [app] in Hdir.
  apply bind_returned in Hrun as ([] & w2 & Hacquire & Hreport).
  repeat split; try done.
  - destruct (Hframe (segments (joinPath (rootOf cwd name) "package.json")))
      as [<-|(Hnone & _)]; done.
  - intros ->. by apply acquireTemplate_remote_returned in Hacquire as [? _].
  - apply installAndReport_keeps in Hreport as <-.
    eapply (acquireTemplate_keeps_any kindKept) in Hacquire;
      [ | apply ensureDirSync_kindKept | apply outputFileSync_kindKept].
    by apply Hacquire.
Qed.

Lemma createProject_returned_checked_witness :
  let env := sampleEnv (npmOutput "/home/u/my-cool-app")
                       (DownloadResolves (Some sampleArchive)) true in
  ∃ w', createProject env "my-cool-app" false "/home/u" homeWorld = (Returned tt, w')
        ∧ canUseNpm env "/home/u/my-cool-app" = true
        ∧ fs w' !! ["home"; "u"; "my-cool-app"] = Some Dir.
Proof.
  intros env.
  destruct (createProject env "my-cool-app" false "/home/u" homeWorld) as [r w'] eqn:Hrun.
  assert (Hr : r = Returned tt).
  { apply (f_equal fst) in Hrun. vm_compute in Hrun. exact (eq_sym Hrun). }
  subst r. exists w'. split; [reflexivity|].
  destruct (createProject_returned_checked env "my-cool-app" false "/home/u" homeWorld w' Hrun)
    as (_ & [Hyarn|Hnpm] & _ & _ & _ & Hdir); [discriminate Hyarn|].
  split; [exact Hnpm | exact Hdir].
Defined.

(** ** The download, the installation and the repository *)

Section Report.
Context (env : Env).

(** A rejected download makes the remote template stage throw the message of
    the rejection, after the two warnings of the handler. *)
Lemma acquireTemplate_rejected (name cwd root message : string) (w1 : World) :
  downloadStream env (examplesProjectUrl env) = DownloadRejects message →
  ∃ e w2 l,
    acquireTemplate env name false cwd root w1 = (Thrown e, w2)
    ∧ log w2
      = l ++ [ Warning ["Unable to download template project from the Diez CDN. Are you connected to the internet?"];
               Warning ["If you would like to generate an empty project, you can re-run this command with "
                          +:+ Format_code env "--bare" +:+ "."] ]
    ∧ (is_Some (mkdirs [] (segments (templateRootOf env)) (fs w1)) → e = message).
Proof.
  intros Hdownload.
  unfold acquireTemplate, tryCatch, createTemplateProject, downloadAndExtractProject,
    bind, ensureDirSync, Log_info, Log_warning, emit, throw.
  rewrite Hdownload.
  destruct (mkdirs _ _ _) as [f'|]; cbn -[String.append segments].
  - eexists _, _, _. split; [reflexivity|].
    split; [by rewrite <- app_assoc | done].
  - eexists _, _, _. split; [reflexivity|].
    split; [by rewrite <- app_assoc | by intros [? ?]].
Qed.

(** With the installation done, the report runs to its end without a
    warning; when the repository cannot be initialized, the success report
    comes right after the end of the loading message. *)
Lemma installAndReport_install_ok (bare useYarn : bool) (cwd root : string) (w2 : World) :
  execSucceeds env (pm useYarn "yarn" "npm" +:+ " install") root = true →
  ∃ w' l,
    installAndReport env bare useYarn cwd root w2 = (Returned tt, w')
    ∧ fs w' = fs w2
    ∧ log w' = log w2 ++ l
    ∧ forallb (λ e, negb (isWarning e)) l = true
    ∧ (gitSucceeds env root = false →
       ∃ l', l = [ LoadingStart "Installing dependencies. This might take a couple of minutes.";
                   LoadingStop;
                   Info ["Success! A new Diez (DS) has been created at "
                           +:+ Format_comment env root +:+ "." +:+ nl] ] ++ l').
Proof.
  intros Hexec.
  unfold installAndReport, tryCatch, bind, execAsync, initializeGitRepository,
    loadingMessage, message_stop, Log_info, Log_warning, emit, throw, ret.
  rewrite Hexec.
  destruct (gitSucceeds env root), bare; cbn -[String.append relative];
    eexists _, _; (split; [reflexivity|]); (split; [reflexivity|]);
    (split; [cbn -[String.append relative]; rewrite <- !app_assoc; reflexivity|]);
    (split; [reflexivity|]); intros Hgit; try discriminate Hgit;
    eexists; reflexivity.
Qed.

End Report.

(** X7: a rejected download is a failure of a non-bare [createProject]: the
    run throws; once the name and the root have been validated (and the
    scratch directory made) the error thrown is the message of the
    rejection as it came, and the log ends with the two warnings of the
    handler, the second proposing [--bare]. *)
Theorem createProject_download_rejected (env : Env) (name cwd message : string) (w : World) :
  downloadStream env (examplesProjectUrl env) = DownloadRejects message →
  (∃ e w', createProject env name false cwd w = (Thrown e, w'))
  ∧ ∀ w1, validated env name cwd w w1 →
      is_Some (mkdirs [] (segments (templateRootOf env)) (fs w1)) →
      ∃ w' l,
        createProject env name false cwd w = (Thrown message, w')
        ∧ log w'
          = l ++ [ Warning ["Unable to download template project from the Diez CDN. Are you connected to the internet?"];
                   Warning ["If you would like to generate an empty project, you can re-run this command with "
                              +:+ Format_code env "--bare" +:+ "."] ].
Proof.
  intros Hdownload. split.
  - rewrite createProject_split.
    destruct ((validatePackageName name;; validateProjectRoot _ _ _) w) as [[[]|e] w1];
      [|by eexists _, _].
    destruct (acquireTemplate_rejected env name cwd (rootOf cwd name) message w1 Hdownload)
      as (e & w2 & l & Hacquire & _).
    unfold bind at 1. rewrite Hacquire. by eexists _, _.
  - intros w1 Hvalidated Hscratch. rewrite createProject_split.
    unfold validated in Hvalidated. rewrite Hvalidated.
    destruct (acquireTemplate_rejected env name cwd (rootOf cwd name) message w1 Hdownload)
      as (e & w2 & l & Hacquire & Hlog & Herror).
    unfold bind at 1. rewrite Hacquire, (Herror Hscratch). by eexists w2, l.
Qed.

Lemma createProject_download_rejected_witness :
  let env := sampleEnv (npmOutput "/home/u/my-cool-app")
                       (DownloadRejects "getaddrinfo ENOTFOUND examples.diez.org") true in
  ∃ w' l,
    createProject env "my-cool-app" false "/home/u" homeWorld
    = (Thrown "getaddrinfo ENOTFOUND examples.diez.org", w')
    ∧ log w'
      = l ++ [ Warning ["Unable to download template project from the Diez CDN. Are you connected to the internet?"];
               Warning ["If you would like to generate an empty project, you can re-run this command with `--bare`."] ].
Proof.
  intros env.
  destruct (createProject_download_rejected env "my-cool-app" "/home/u"
              "getaddrinfo ENOTFOUND examples.diez.org" homeWorld eq_refl)
    as [_ Hvalidated].
  apply (Hvalidated (withFs (<[ ["home"; "u"; "my-cool-app"] := Dir ]> homeFs) homeWorld)).
  - vm_compute; reflexivity.
  - vm_compute. eexists; reflexivity.
Defined.

(** X8: a repository that cannot be initialized is passed over in silence:
    with the template in place and the installation done, [createProject]
    returns, and in the log the success report comes right after the end of
    the loading message, with no warning after it. *)
Theorem createProject_git_failure_silent (env : Env) (name : string) (bare : bool)
    (cwd : string) (w w1 w2 : World) :
  validated env name cwd w w1 →
  acquireTemplate env name bare cwd (rootOf cwd name) w1 = (Returned tt, w2) →
  execSucceeds env (pm (shouldUseYarn env) "yarn" "npm" +:+ " install") (rootOf cwd name)
  = true →
  gitSucceeds env (rootOf cwd name) = false →
  ∃ w' l,
    createProject env name bare cwd w = (Returned tt, w')
    ∧ fs w' = fs w2
    ∧ log w'
      = log w2
        ++ [ LoadingStart "Installing dependencies. This might take a couple of minutes.";
             LoadingStop;
             Info ["Success! A new Diez (DS) has been created at "
                     +:+ Format_comment env (rootOf cwd name) +:+ "." +:+ nl] ]
        ++ l
    ∧ forallb (λ e, negb (isWarning e)) l = true.
Proof.
  intros Hvalidated Hacquire Hexec Hgit. rewrite createProject_split.
  unfold validated in Hvalidated. rewrite Hvalidated.
  unfold bind at 1. rewrite Hacquire.
  destruct (installAndReport_install_ok env bare _ cwd _ w2 Hexec)
    as (w' & l & Hrun & Hfs & Hlog & Hquiet & Hsilent).
  destruct (Hsilent Hgit) as [l' ->].
  exists w', l'. repeat split; [done | done | done |].
  by cbn in Hquiet.
Qed.

(** The bare run beside the bundled template, with a version control that
    fails. *)
Lemma createProject_git_failure_silent_witness :
  let env := yarnEnv (DownloadResolves None) false in
  ∃ w' l,
    createProject env "app" true "/home/u" bundledWorld = (Returned tt, w')
    ∧ fs w' !! ["home"; "u"; "app"; "package.json"]
      = Some (File "{ name: app, component: App }")
    ∧ log w'
      = [ LoadingStart "Installing dependencies. This might take a couple of minutes.";
          LoadingStop;
          Info ["Success! A new Diez (DS) has been created at /home/u/app." +:+ nl] ]
        ++ l
    ∧ forallb (λ e, negb (isWarning e)) l = true.
Proof.
  intros env.
  assert (Hv : validated env "app" "/home/u" bundledWorld
                 (withFs (<[ ["home"; "u"; "app"] := Dir ]> bundledFs) bundledWorld)).
  { vm_compute; reflexivity. }
  assert (Ha : acquireTemplate env "app" true "/home/u" (rootOf "/home/u" "app")
                 (withFs (<[ ["home"; "u"; "app"] := Dir ]> bundledFs) bundledWorld)
               = (Returned tt,
                  withFs (<[ ["home"; "u"; "app"; "package.json"]
                               := File "{ name: app, component: App }" ]>
                            (<[ ["home"; "u"; "app"] := Dir ]> bundledFs)) bundledWorld)).
  { vm_compute; reflexivity. }
  destruct (createProject_git_failure_silent env "app" true "/home/u" bundledWorld _ _
              Hv Ha eq_refl eq_refl)
    as (w' & l & Hrun & Hfs & Hlog & Hquiet).
  exists w', l. split; [exact Hrun|]. split; [|split; [exact Hlog | exact Hquiet]].
  rewrite Hfs. vm_compute; reflexivity.
Defined.

(** X9: a run that returns logs a warning only if the installation failed:
    when [createProject] returns and the install command succeeded, the log
    is the initial one followed by entries none of which is a warning. *)
Theorem createProject_quiet_success (env : Env) (name : string) (bare : bool)
    (cwd : string) (w w' : World) :
  createProject env name bare cwd w = (Returned tt, w') →
  execSucceeds env (pm (shouldUseYarn env) "yarn" "npm" +:+ " install") (rootOf cwd name)
  = true →
  ∃ l, log w' = log w ++ l ∧ forallb (λ e, negb (isWarning e)) l = true.
Proof.
  intros Hrun Hexec. rewrite createProject_split in Hrun.
  destruct ((validatePackageName name;; validateProjectRoot _ _ _) w)
    as [[[]|e] w1] eqn:Hvalidated; [|discriminate].
  apply validated_inv in Hvalidated as [_ Hroot].
  apply validateProjectRoot_log in Hroot.
  apply bind_returned in Hrun as ([] & w2 & Hacquire & Hreport).
  destruct (installAndReport_install_ok env bare _ cwd _ w2 Hexec)
    as (w'' & l & Hrun' & _ & Hlog & Hquiet & _).
  rewrite Hrun' in Hreport. injection Hreport as ->.
  destruct bare.
  - apply acquireTemplate_bare_log in Hacquire. exists l. split; [congruence | done].
  - apply acquireTemplate_remote_returned in Hacquire as (_ & l0 & Hlog0 & Hquiet0).
    exists (l0 ++ l). split.
    + rewrite Hlog, Hlog0, Hroot. by rewrite <- app_assoc.
    + rewrite forallb_app. by rewrite Hquiet0, Hquiet.
Qed.

Lemma createProject_quiet_success_witness :
  let env := sampleEnv (npmOutput "/home/u/my-cool-app")
                       (DownloadResolves (Some sampleArchive)) true in
  ∃ w' l, createProject env "my-cool-app" false "/home/u" homeWorld = (Returned tt, w')
          ∧ log w' = l ∧ forallb (λ e, negb (isWarning e)) l = true.
Proof.
  intros env.
  destruct (createProject env "my-cool-app" false "/home/u" homeWorld) as [r w'] eqn:Hrun.
  assert (Hr : r = Returned tt).
  { apply (f_equal fst) in Hrun. vm_compute in Hrun. exact (eq_sym Hrun). }
  subst r.
  destruct (createProject_quiet_success env "my-cool-app" false "/home/u" homeWorld w' Hrun
              eq_refl) as (l & Hlog & Hquiet).
  exists w', l. split; [reflexivity|]. split; [exact Hlog | exact Hquiet].
Defined.


(** ** The working-directory line of [npm config list] *)

Lemma chars_app (a b : string) : chars (a +:+ b) = chars a ++ chars b.
Proof.
  unfold chars. induction a as [|c a IH]; [reflexivity|].
  simpl. by rewrite IH.
Qed.

Lemma linesOf_app_terminated (b s : list ascii) (t : ascii) :
  isLineTerminator t = true → linesOf (b ++ t :: s) = linesOf b ++ linesOf s.
Proof.
  intros Ht. induction b as [|c b IH]; cbn [app linesOf].
  - by rewrite Ht.
  - rewrite IH. destruct (isLineTerminator c); [reflexivity|].
    by destruct (linesOf_cons b) as (l & ls & -> & _).
Qed.

Lemma restOfLine_app (p a : list ascii) :
  forallb (λ c, negb (isLineTerminator c)) p = true →
  match a with [] => true | c :: _ => isLineTerminator c end = true →
  restOfLine (p ++ a) = p.
Proof.
  intros Hp Ha. induction p as [|c p IH]; cbn [app].
  - destruct a as [|c a]; [reflexivity|]. cbn [restOfLine]. by rewrite Ha.
  - cbn [forallb] in Hp. apply andb_prop in Hp as [Hc Hp].
    cbn [restOfLine]. apply negb_true_iff in Hc. rewrite Hc. by rewrite IH.
Qed.

Lemma startsWith_app (p s : list ascii) : startsWith p (p ++ s) = true.
Proof.
  induction p as [|c p IH]; [by destruct s|].
  cbn [app startsWith]. by rewrite bool_decide_true, IH.
Qed.

(** The working-directory lines of a text that goes on after a line end are
    those of the text before, then those of the text after. *)
Lemma cwdLines_after_line_end (before rest : string) :
  endsLine before = true → cwdLines before = [] →
  cwdLines (before +:+ rest) = cwdLines rest.
Proof.
  unfold endsLine, cwdLines. rewrite chars_app.
  destruct (chars before) as [|c0 b0] eqn:Hb using rev_ind; [done|].
  clear IHb0. rewrite rev_unit. intros Ht.
  rewrite <- app_assoc. cbn [app].
  rewrite !(linesOf_app_terminated _ _ _ Ht), !List.filter_app.
  cbn [linesOf List.filter startsWith cwdPrefix chars list_ascii_of_string].
  rewrite app_nil_r. by intros ->.
Qed.

(** X10: the answer of [canUseNpm] is read off the first line of the output
    that starts with the working-directory prefix, up to the end of that
    line whichever line end is used: when no such line comes before it, a
    line that names a path makes [canUseNpm] answer whether that path is the
    root, whatever follows the line. *)
Theorem canUseNpm_cwd_line (env : Env) (root before path after : string) :
  spawnSync_npm_config_list env
  = SpawnJoined (JsString (before +:+ "; cwd = " +:+ path +:+ after)) →
  endsLine before = true →
  cwdLines before = [] →
  forallb (λ c, negb (isLineTerminator c)) (chars path) = true →
  startsLineEnd after = true →
  canUseNpm env root = bool_decide (path = root).
Proof.
  intros Hspawn Hbefore Hnone Hpath Hafter.
  rewrite (canUseNpm_string _ _ _ Hspawn).
  rewrite (cwdLines_after_line_end _ _ Hbefore Hnone).
  unfold cwdLines. rewrite !chars_app.
  destruct (linesOf_cons (chars "; cwd = " ++ chars path ++ chars after))
    as (line & others & -> & ->).
  rewrite app_assoc, restOfLine_app; [ | | exact Hafter].
  - cbn [List.filter]. change (chars "; cwd = ") with cwdPrefix.
    rewrite startsWith_app. unfold cwdOfLine. rewrite drop_app_length.
    unfold chars, str. by rewrite string_of_list_ascii_of_string.
  - rewrite forallb_app, Hpath. reflexivity.
Qed.

Lemma canUseNpm_cwd_line_witness :
  let before := "; cli configs" +:+ cr +:+ nl +:+ "; not at a line start; cwd = /x" +:+ cr +:+ nl in
  let after := cr +:+ nl +:+ "; cwd = /other" +:+ cr +:+ nl in
  canUseNpm (npmEnv (SpawnJoined (JsString (before +:+ "; cwd = " +:+ "C:\work\app" +:+ after))))
            "C:\work\app"
  = true.
Proof.
  intros before after.
  refine (canUseNpm_cwd_line (npmEnv (SpawnJoined (JsString _))) "C:\work\app"
            before "C:\work\app" after eq_refl _ _ _ _);
    vm_compute; reflexivity.
Defined.

(** ** What the name validator logs *)

Lemma done_invalid_messages (ws es : list string) :
  validForNewPackages (done ws es) = false → validationMessages (done ws es) ≠ [].
Proof.
  unfold done, validationMessages; cbn [validForNewPackages errors NpmName.warnings].
  destruct es as [|e es]; [|by rewrite bool_decide_false].
  destruct ws as [|x ws]; [by rewrite !bool_decide_true|].
  by rewrite bool_decide_true, bool_decide_false.
Qed.

Lemma validateNpmPackageName_done (name : string) :
  ∃ ws es, validateNpmPackageName name = done ws es.
Proof.
  unfold validateNpmPackageName.
  destruct (urlFriendly (chars name)); [by eexists _, _|].
  destruct (scopedParts name) as [[user pkg]|]; [|by eexists _, _].
  destruct (urlFriendly user && urlFriendly pkg); by eexists _, _.
Qed.

(** X11: for a name that is not valid for new packages [validatePackageName]
    logs two warnings before it throws, a heading and then the messages of
    the validation, the errors before the warnings, each as a list item;
    there is always at least one message.  The file system is not
    touched. *)
Theorem validatePackageName_invalid_log (name : string) (w : World) :
  validForNewPackages (validateNpmPackageName name) = false →
  validationMessages (validateNpmPackageName name) ≠ []
  ∧ validatePackageName name w
    = (Thrown ("Unable to create project with name " +:+ name +:+ "."),
       withLog (log w ++ [ Warning ["Project name validation failed:"];
                           Warning (validationMessages (validateNpmPackageName name)) ]) w).
Proof.
  intros Hinvalid.
  assert (Hmessages : validationMessages (validateNpmPackageName name) ≠ []).
  { destruct (validateNpmPackageName_done name) as (ws & es & Hdone).
    rewrite Hdone in Hinvalid |- *. by apply done_invalid_messages. }
  split; [exact Hmessages|].
  unfold validatePackageName. rewrite Hinvalid. cbn [negb].
  unfold validationMessages in Hmessages |- *.
  destruct (errors (validateNpmPackageName name)) as [es|],
           (NpmName.warnings (validateNpmPackageName name)) as [ws|];
    cbn [default] in Hmessages |- *;
    rewrite bool_decide_false by done;
    unfold bind, when, Log_warning, emit, throw, withLog; cbn;
    by rewrite <- app_assoc.
Qed.

Lemma validatePackageName_invalid_log_witness :
  validatePackageName "My App" homeWorld
  = (Thrown "Unable to create project with name My App.",
     withLog [ Warning ["Project name validation failed:"];
               Warning [" - name can only contain URL-friendly characters";
                        " - name can no longer contain capital letters"] ] homeWorld).
Proof.
  apply (proj2 (validatePackageName_invalid_log "My App" homeWorld eq_refl)).
Defined.

(** ** Running again after a failed download *)

(** A root that has been validated stays valid in every world that keeps
    what the validated one holds and has no [package.json] at the root. *)
Lemma validateProjectRoot_stable (env : Env) (root : string) (useYarn : bool)
    (w w1 w2 : World) :
  validateProjectRoot env root useYarn w = (Returned tt, w1) →
  kindKept (fs w1) (fs w2) →
  fs w2 !! segments (joinPath root "package.json") = None →
  validateProjectRoot env root useYarn w2 = (Returned tt, w2).
Proof.
  intros Hrun Hkept Hpkg.
  apply validateProjectRoot_returned in Hrun as (_ & Hpm & _ & Hmk & _).
  pose proof (mkdirs_prefixes_dir _ _ _ _ Hmk) as Hdirs. cbn [app] in Hdirs.
  assert (Hdirs2 : ∀ q, q `prefix_of` segments root → fs w2 !! q = Some Dir).
  { intros q Hq. apply Hkept, Hdirs; [apply prefix_nil | done]. }
  rewrite validateProjectRoot_cases, (Hdirs2 (segments root)) by done.
  rewrite mkdirs_id by (intros q _ Hq; by apply Hdirs2).
  rewrite Hpkg, bool_decide_false by (by intros [? ?]).
  destruct w2 as [f2 l2]. destruct Hpm as [->| ->]; [done|]. by destruct useYarn.
Qed.

(** X12: a remote run that fails for want of a stream (the download rejects
    or gives none) leaves a world in which the name and the root are valid
    again, so that a second run, bare as the warning proposes, is not
    stopped by the validator: provided the scratch directory does not lie
    below the [package.json] of the root. *)
Theorem createProject_rerun_after_failed_download (env : Env) (name cwd : string)
    (w w1 : World) (e : string) (w' : World) :
  validated env name cwd w w1 →
  (∀ archive, downloadStream env (examplesProjectUrl env) ≠ DownloadResolves (Some archive)) →
  ¬ segments (joinPath (rootOf cwd name) "package.json")
      `prefix_of` segments (templateRootOf env) →
  createProject env name false cwd w = (Thrown e, w') →
  validated env name cwd w' w'.
Proof.
  intros Hvalidated Hnostream Hscratch Hrun.
  rewrite createProject_split in Hrun.
  pose proof Hvalidated as Hv. unfold validated in Hv. rewrite Hv in Hrun. clear Hv.
  apply validated_inv in Hvalidated as [Hvalid Hroot].
  apply validated_intro; [exact Hvalid|].
  apply (validateProjectRoot_stable env _ _ w w1 w' Hroot).
  - assert (Hkeeps : kindKept (fs w1) (fs w')); [|exact Hkeeps].
    revert Hrun. apply keeps_bind; [apply _ | | intros _].
    + apply acquireTemplate_keeps_any;
        [apply _ | apply ensureDirSync_kindKept | apply outputFileSync_kindKept].
    + apply installAndReport_keeps_any; apply _.
  - apply validateProjectRoot_returned in Hroot as (_ & _ & Hpkg & _).
    revert Hrun.
    unfold bind at 1, acquireTemplate, tryCatch, createTemplateProject,
      downloadAndExtractProject, bind, ensureDirSync, Log_info, Log_warning, emit, throw.
    destruct (mkdirs _ _ (fs w1)) as [fa|] eqn:Hmk.
    + apply mkdirs_spec in Hmk as [_ Hframe]. cbn [app] in Hframe.
      destruct (downloadStream _ _) as [message|[stream|]] eqn:Hdownload;
        [ | by destruct (Hnostream stream) | ];
        cbn -[String.append segments]; intros [= _ <-]; cbn [fs withFs withLog];
        (destruct (Hframe (segments (joinPath (rootOf cwd name) "package.json")))
           as [->|(_ & _ & Hprefix)]; [exact Hpkg | by destruct Hscratch]).
    + cbn -[String.append segments]. by intros [= _ <-].
Qed.

Lemma createProject_rerun_after_failed_download_witness :
  let env := sampleEnv (npmOutput "/home/u/my-cool-app") (DownloadResolves None) true in
  ∃ e w', createProject env "my-cool-app" false "/home/u" homeWorld = (Thrown e, w')
          ∧ validated env "my-cool-app" "/home/u" w' w'.
Proof.
  intros env.
  destruct (createProject env "my-cool-app" false "/home/u" homeWorld) as [r w'] eqn:Hrun.
  assert (Hr : ∃ e, r = Thrown e).
  { apply (f_equal fst) in Hrun. vm_compute in Hrun. subst r. by eexists. }
  destruct Hr as [e ->]. exists e, w'. split; [reflexivity|].
  apply (createProject_rerun_after_failed_download env "my-cool-app" "/home/u" homeWorld
           (withFs (<[ ["home"; "u"; "my-cool-app"] := Dir ]> homeFs) homeWorld) e w').
  - vm_compute; reflexivity.
  - intros archive Hstream. discriminate Hstream.
  - intros [k Hk]. vm_compute in Hk. discriminate Hk.
  - exact Hrun.
Defined.

(** ** What is left behind *)

(** X13: nothing is cleaned up after a failure: once the name and the root
    have been validated, the root is a directory in the world
    [createProject] leaves, whether it returns or throws. *)
Theorem createProject_root_left_in_place (env : Env) (name : string) (bare : bool)
    (cwd : string) (w w1 : World) (r : Outcome unit) (w' : World) :
  validated env name cwd w w1 →
  createProject env name bare cwd w = (r, w') →
  fs w' !! segments (rootOf cwd name) = Some Dir.
Proof.
  intros Hvalidated Hrun. rewrite createProject_split in Hrun.
  pose proof Hvalidated as Hv. unfold validated in Hv. rewrite Hv in Hrun. clear Hv.
  apply validated_inv in Hvalidated as [_ Hroot].
  apply validateProjectRoot_returned in Hroot as (_ & _ & _ & Hmk & _).
  apply mkdirs_spec in Hmk as [Hdir _]. cbn [app] in Hdir.
  assert (Hkeeps : kindKept (fs w1) (fs w')); [|by apply Hkeeps].
  revert Hrun. apply keeps_bind; [apply _ | | intros _].
  - apply acquireTemplate_keeps_any;
      [apply _ | apply ensureDirSync_kindKept | apply outputFileSync_kindKept].
  - apply installAndReport_keeps_any; apply _.
Qed.

Lemma createProject_root_left_in_place_witness :
  let env := sampleEnv (npmOutput "/home/u/my-cool-app") (DownloadResolves None) true in
  ∃ e w', createProject env "my-cool-app" false "/home/u" homeWorld = (Thrown e, w')
          ∧ fs homeWorld !! ["home"; "u"; "my-cool-app"] = None
          ∧ fs w' !! ["home"; "u"; "my-cool-app"] = Some Dir.
Proof.
  intros env.
  destruct (createProject env "my-cool-app" false "/home/u" homeWorld) as [r w'] eqn:Hrun.
  assert (Hr : ∃ e, r = Thrown e).
  { apply (f_equal fst) in Hrun. vm_compute in Hrun. subst r. by eexists. }
  destruct Hr as [e ->]. exists e, w'. split; [reflexivity|]. split; [reflexivity|].
  apply (createProject_root_left_in_place env "my-cool-app" false "/home/u" homeWorld
           (withFs (<[ ["home"; "u"; "my-cool-app"] := Dir ]> homeFs) homeWorld)
           (Thrown e) w'); [vm_compute; reflexivity | exact Hrun].
Defined.


